(** * Hybrid roster scheduler: the constraint scheduling engine

    A shallow embedding of [scheduler.py] ([build_and_solve]) together with
    the parts of the host it talks to: the CP-SAT model it fills
    ([cp_model.CpModel]), the date library, the rule translator
    ([call_llm]), the dynamic execution of the translated fragment
    ([exec]) and the solver ([CpSolver.Solve]).

    Python integers are unbounded, hence [Z]; day indices and variable
    indices are [nat]; text is [string] (characters are read as ASCII);
    the dictionaries [work], [mc_preferences] and the returned object are
    finite maps. Exceptions are values of [exn], and every function that
    can raise returns a [result]. *)

From Stdlib Require Import ZArith String Ascii List Lia.
From stdpp Require Import base option list gmap strings fin_maps pretty.

Local Open Scope string_scope.
Local Open Scope nat_scope.
Local Open Scope list_scope.

(** ** Exceptions and the error monad *)

Inductive exn : Type :=
| Exn (cls : string) (msg : string).

Definition exn_class (e : exn) : string := match e with Exn c _ => c end.
Definition exn_msg (e : exn) : string := match e with Exn _ m => m end.

Definition RuntimeError (msg : string) : exn := Exn "RuntimeError" msg.
Definition KeyError (msg : string) : exn := Exn "KeyError" msg.
Definition IndexError (msg : string) : exn := Exn "IndexError" msg.
Definition AttributeError (msg : string) : exn := Exn "AttributeError" msg.
Definition ValueError (msg : string) : exn := Exn "ValueError" msg.

Definition result (A : Type) : Type := (exn + A)%type.

Definition ret {A} (a : A) : result A := inr a.
Definition raise {A} (e : exn) : result A := inl e.
Definition bind {A B} (r : result A) (k : A → result B) : result B :=
  match r with
  | inl e => inl e
  | inr a => k a
  end.

Notation "'let*' x ':=' r 'in' k" := (bind r (λ x, k))
  (at level 10, x pattern, r at level 100, k at level 200).

(** [for x in l: s = f(s, x)] where the body may raise. *)
Fixpoint foldM {S A} (f : S → A → result S) (l : list A) (s : S) : result S :=
  match l with
  | [] => ret s
  | x :: l' => let* s' := f s x in foldM f l' s'
  end.

(** A comprehension [[f(x) for x in l]] whose element expression may raise. *)
Fixpoint mapM {A B} (f : A → result B) (l : list A) : result (list B) :=
  match l with
  | [] => ret []
  | x :: l' => let* y := f x in let* ys := mapM f l' in ret (y :: ys)
  end.

(** ** The CP-SAT model *)

(** A Boolean variable is known by its index in the model. *)
Abbreviation var := nat.

(** Linear expressions as the modelling layer builds them: integers,
    variables, sums and products with an integer. *)
Inductive LinearExpr : Type :=
| LConst (c : Z)
| LVar (v : var)
| LAdd (a b : LinearExpr)
| LMul (c : Z) (e : LinearExpr).

Inductive relop : Type := OpEq | OpGe | OpLe | OpGt | OpLt | OpNe.

Inductive literal : Type :=
| Lit (v : var)
| LitNot (v : var).

(** What [model.Add(...)], [.OnlyEnforceIf(...)] and
    [model.AddImplication(...)] put into the model. The core rules only use
    [Linear]; the other two are what a custom fragment may add. *)
Inductive Constraint : Type :=
| Linear (lhs : LinearExpr) (op : relop) (rhs : LinearExpr)
| Enforced (lhs : LinearExpr) (op : relop) (rhs : LinearExpr) (lits : list literal)
| Implication (a b : literal).

Record CpModel : Type := mkModel {
  variables : list string;        (* names of the Boolean variables, by index *)
  constraints : list Constraint
}.

Definition empty_model : CpModel := mkModel [] [].

(** [model.NewBoolVar(name)] *)
Definition NewBoolVar (name : string) (m : CpModel) : CpModel * var :=
  (mkModel (variables m ++ [name]) (constraints m), length (variables m)).

(** [model.Add(ct)] *)
Definition Add (ct : Constraint) (m : CpModel) : CpModel :=
  mkModel (variables m) (constraints m ++ [ct]).

(** Python's [sum(xs)]: [0 + x1 + x2 + ...]. *)
Definition py_sum (xs : list LinearExpr) : LinearExpr :=
  foldl LAdd (LConst 0) xs.

(** *** Meaning of a model under an assignment of the variables *)

Definition assignment : Type := var → Z.

Fixpoint eval (sol : assignment) (e : LinearExpr) : Z :=
  match e with
  | LConst c => c
  | LVar v => sol v
  | LAdd a b => (eval sol a + eval sol b)%Z
  | LMul c e => (c * eval sol e)%Z
  end.

Definition compare_op (op : relop) (a b : Z) : bool :=
  match op with
  | OpEq => (a =? b)%Z
  | OpGe => (b <=? a)%Z
  | OpLe => (a <=? b)%Z
  | OpGt => (b <? a)%Z
  | OpLt => (a <? b)%Z
  | OpNe => negb (a =? b)%Z
  end.

Definition lit_true (sol : assignment) (l : literal) : bool :=
  match l with
  | Lit v => negb (sol v =? 0)%Z
  | LitNot v => (sol v =? 0)%Z
  end.

Definition holds (sol : assignment) (ct : Constraint) : bool :=
  match ct with
  | Linear a op b => compare_op op (eval sol a) (eval sol b)
  | Enforced a op b lits =>
      implb (forallb (lit_true sol) lits) (compare_op op (eval sol a) (eval sol b))
  | Implication a b => implb (lit_true sol a) (lit_true sol b)
  end.

(** A Boolean variable takes the value 0 or 1. *)
Definition in_domain (sol : assignment) (m : CpModel) : Prop :=
  ∀ v : var, v < length (variables m) → sol v = 0%Z ∨ sol v = 1%Z.

Definition satisfies (sol : assignment) (m : CpModel) : Prop :=
  in_domain sol m ∧ ∀ ct, ct ∈ constraints m → holds sol ct = true.

Inductive CpSolverStatus : Type :=
| UNKNOWN | MODEL_INVALID | FEASIBLE | INFEASIBLE | OPTIMAL.

(** [status in (cp_model.OPTIMAL, cp_model.FEASIBLE)] *)
Definition is_success (st : CpSolverStatus) : bool :=
  match st with
  | OPTIMAL | FEASIBLE => true
  | _ => false
  end.

(** ** The request *)

(** [input_data]. The keys read with [input_data[...]] are fields that are
    always present; the keys read with [input_data.get(..., default)] are
    optional. *)
Record InputData : Type := mkInput {
  seniors : list string;                 (* input_data["nurses"]["seniors"] *)
  juniors : list string;                 (* input_data["nurses"]["juniors"] *)
  start_date : string;
  end_date : string;
  mc_preferences : option (gmap string (list string));
  min_nurses_per_shift : Z;
  min_seniors_per_shift : Z;
  min_am_coverage : option Z;
  min_senior_am_coverage : option Z;
  max_hours_per_week : Z;
  min_hours_per_week : Z;
  rules_text : option string;
  day_of_week : option (list string)
}.

(** The dictionary [work], keyed by [(nurse, day index, shift name)]. *)
Abbreviation work_key := (string * nat * string)%type.
Abbreviation work_map := (gmap work_key var).

(** The objects handed to the custom fragment. They are shared with
    [build_and_solve], which goes on using them after the fragment ran. *)
Record Namespace : Type := mkNs {
  ns_model : CpModel;
  ns_work : work_map;
  ns_nurses : list string;
  ns_seniors : list string;
  ns_juniors : list string;
  ns_days : list string;
  ns_shift_names : list string;
  ns_day_of_week : list string
}.

(** ** The host: what [build_and_solve] calls and does not define *)

Record Host : Type := mkHost {
  (* datetime.datetime.strptime(s, "%Y-%m-%d"), as the day's ordinal *)
  strptime : string → result Z;
  (* (date).strftime("%Y-%m-%d") of the day with that ordinal *)
  strftime : Z → string;
  build_codegen_prompt : string → string;
  (* call_llm(prompt): a string, [None], or an exception *)
  call_llm : string → result (option string);
  (* exec(snippet, namespace, namespace): the shared objects afterwards *)
  exec : string → Namespace → result Namespace;
  (* solver.Solve(model): the status and solver.Value *)
  Solve : CpModel → CpSolverStatus * assignment
}.

(** ** Building the model *)

Definition shift_names : list string := ["AM"; "PM"; "Night"; "REST"; "MC"].

(** The literal [["AM", "PM", "Night"]] of rules 3b, 3c and 3d. *)
Definition working_shifts : list string := ["AM"; "PM"; "Night"].

(** [enumerate(l)] *)
Definition enumerate {A} (l : list A) : list (nat * A) := imap pair l.

(** [f"work_{n}_{d}_{s}"] *)
Definition var_name (n : string) (d : nat) (s : string) : string :=
  "work_" +:+ n +:+ "_" +:+ pretty d +:+ "_" +:+ s.

Definition key_repr (k : work_key) : string :=
  "('" +:+ k.1.1 +:+ "', " +:+ pretty k.1.2 +:+ ", '" +:+ k.2 +:+ "')".

(** [work[n, d, s]] *)
Definition work_get (work : work_map) (k : work_key) : result var :=
  match work !! k with
  | Some v => ret v
  | None => raise (KeyError (key_repr k))
  end.

(** Step 2: one Boolean variable per nurse, day and shift. *)
Definition create_variables (nurses : list string) (D : nat)
    (st : CpModel * work_map) : CpModel * work_map :=
  foldl (λ st n,
    foldl (λ st d,
      foldl (λ '(model, work) s,
        let '(model', v) := NewBoolVar (var_name n d s) model in
        (model', <[(n, d, s) := v]> work))
      st shift_names)
    st (seq 0 D))
  st nurses.

(** Step 2b: MC is forced on the declared dates and forbidden elsewhere. *)
Definition add_mc (declared_mc : gmap string (list string)) (work : work_map)
    (nurses days : list string) (model : CpModel) : result CpModel :=
  foldM (λ model n,
    let declared_dates : gset string := list_to_set (default [] (declared_mc !! n)) in
    foldM (λ model '(d, day_str),
      let* mc := work_get work (n, d, "MC") in
      if bool_decide (day_str ∈ declared_dates)
      then ret (Add (Linear (LVar mc) OpEq (LConst 1)) model)
      else ret (Add (Linear (LVar mc) OpEq (LConst 0)) model))
    (enumerate days) model)
  nurses model.

(** Rule 3a: exactly one assignment per nurse per day. *)
Definition add_single_assignment (work : work_map) (nurses : list string)
    (D : nat) (model : CpModel) : result CpModel :=
  foldM (λ model n,
    foldM (λ model d,
      let* vs := mapM (λ s, work_get work (n, d, s)) shift_names in
      ret (Add (Linear (py_sum (LVar <$> vs)) OpEq (LConst 1)) model))
    (seq 0 D) model)
  nurses model.

(** Rule 3b: coverage of every working shift. *)
Definition add_shift_coverage (work : work_map) (nurses seniors : list string)
    (D : nat) (min_nurses min_seniors : Z) (model : CpModel) : result CpModel :=
  foldM (λ model d,
    foldM (λ model s,
      let* vs := mapM (λ n, work_get work (n, d, s)) nurses in
      let model := Add (Linear (py_sum (LVar <$> vs)) OpGe (LConst min_nurses)) model in
      let* ws := mapM (λ n, work_get work (n, d, s)) seniors in
      ret (Add (Linear (py_sum (LVar <$> ws)) OpGe (LConst min_seniors)) model))
    working_shifts model)
  (seq 0 D) model.

(** [[(n, d, s) for n in ns for s in working_shifts]] *)
Definition working_keys (ns : list string) (d : nat) : list work_key :=
  n ← ns; s ← working_shifts; [(n, d, s)].

(** Rule 3c: AM coverage as a percentage of the nurses working that day. *)
Definition add_am_percentage (work : work_map) (nurses seniors : list string)
    (D : nat) (am_cov senior_am_cov : option Z) (model : CpModel) : result CpModel :=
  foldM (λ model d,
    let* tw := mapM (work_get work) (working_keys nurses d) in
    let total_working := py_sum (LVar <$> tw) in
    let* tws := mapM (work_get work) (working_keys seniors d) in
    let total_working_seniors := py_sum (LVar <$> tws) in
    let min_am_pct := default 0%Z am_cov in
    let* model :=
      if (0 <? min_am_pct)%Z then
        let* am := mapM (λ n, work_get work (n, d, "AM")) nurses in
        ret (Add (Linear (LMul 100 (py_sum (LVar <$> am))) OpGe
                         (LMul min_am_pct total_working)) model)
      else ret model in
    let min_senior_am_pct := default 0%Z senior_am_cov in
    if (0 <? min_senior_am_pct)%Z then
      let* am := mapM (λ n, work_get work (n, d, "AM")) seniors in
      ret (Add (Linear (LMul 100 (py_sum (LVar <$> am))) OpGe
                       (LMul min_senior_am_pct total_working_seniors)) model)
    else ret model)
  (seq 0 D) model.

(** [shift_hours] of rule 3d. *)
Definition shift_hours : gmap string Z :=
  list_to_map [("AM", 7%Z); ("PM", 7%Z); ("Night", 10%Z); ("REST", 0%Z); ("MC", 0%Z)].

Definition shift_hours_get (s : string) : result Z :=
  match shift_hours !! s with
  | Some h => ret h
  | None => raise (KeyError ("'" +:+ s +:+ "'"))
  end.

(** Rule 3d: weekly hours, on the full weeks only. *)
Definition add_weekly_hours (work : work_map) (nurses : list string) (D : nat)
    (max_h min_h : Z) (model : CpModel) : result CpModel :=
  foldM (λ model n,
    let num_full_weeks := D / 7 in
    foldM (λ model w,
      let week_days := seq (w * 7) 7 in
      let* terms :=
        mapM (λ '(d, s),
               let* h := shift_hours_get s in
               let* v := work_get work (n, d, s) in
               ret (LMul h (LVar v)))
             (d ← week_days; s ← working_shifts; [(d, s)]) in
      let total := py_sum terms in
      let model := Add (Linear total OpLe (LConst max_h)) model in
      ret (Add (Linear total OpGe (LConst min_h)) model))
    (seq 0 num_full_weeks) model)
  nurses model.

(** ** Text operations used on the translated fragment *)

(** The newline character; a one-character string of it is Python's
    ['\n'], while Python's ['\\n'] is a backslash followed by [n]. *)
Definition nl : string := String (ascii_of_nat 10) "".
Definition backslash_n : string := String (ascii_of_nat 92) "n".

(** [str.isspace] on ASCII, which is also [\s] of a text pattern. *)
Definition is_space (c : ascii) : bool :=
  let k := nat_of_ascii c in
  ((9 <=? k) && (k <=? 13)) || ((28 <=? k) && (k <=? 32)).

Fixpoint lstrip (s : string) : string :=
  match s with
  | String c s' => if is_space c then lstrip s' else s
  | EmptyString => s
  end.

Definition rstrip (s : string) : string := String.rev (lstrip (String.rev s)).

(** [s.strip()] *)
Definition strip (s : string) : string := rstrip (lstrip s).

Fixpoint drop_chars (k : nat) (s : string) : string :=
  match k, s with
  | S k', String _ s' => drop_chars k' s'
  | _, _ => s
  end.

(** [pat in s] *)
Fixpoint contains (pat s : string) : bool :=
  if String.prefix pat s then true
  else match s with
       | String _ s' => contains pat s'
       | EmptyString => false
       end.

(** [s.replace(old, new)] for a non-empty [old]: the occurrences are
    replaced from the left without overlap; [skip] counts the characters of
    a replaced occurrence that are still to be passed over. *)
Fixpoint replace_from (old new : string) (skip : nat) (s : string) : string :=
  match s with
  | EmptyString => EmptyString
  | String c s' =>
      match skip with
      | S k => replace_from old new k s'
      | O =>
          if String.prefix old s
          then new +:+ replace_from old new (String.length old - 1) s'
          else String c (replace_from old new 0 s')
      end
  end.

Definition replace (old new s : string) : string := replace_from old new 0 s.

Definition fence : string := "```".

(** [re.sub(r"^```(?:python)?\s*", "", s)]: only the start of the text can
    match; the fence, then the word if it is there, then all the white
    space that follows are removed. *)
Definition sub_open_fence (s : string) : string :=
  if String.prefix fence s then
    let s1 := drop_chars 3 s in
    let s2 := if String.prefix "python" s1 then drop_chars 6 s1 else s1 in
    lstrip s2
  else s.

(** [re.sub(r"\s*```$", "", s)]: [$] is the end of the text or the place
    before a final newline; the fence found there goes together with the
    white space before it. *)
Definition sub_close_fence (s : string) : string :=
  let r := String.rev s in
  if String.prefix fence r then String.rev (lstrip (drop_chars 3 r))
  else if String.prefix (nl +:+ fence) r
       then String.rev (nl +:+ lstrip (drop_chars 4 r))
       else s.

(** ** Custom rules (step 4) *)

Definition forbidden : list string :=
  ["shift_names.index"; "for d in days"; "for d in days[:-1]"; "for d in days[1:]"].

(** The text of the fragment as it reaches the checks and [exec]. *)
Definition clean_snippet (reply : string) : string :=
  let snippet := strip reply in
  let snippet := sub_open_fence snippet in
  let snippet := sub_close_fence snippet in
  if contains backslash_n snippet && negb (contains nl snippet)
  then replace backslash_n nl snippet
  else snippet.

(** [for f in forbidden: if f in snippet: raise RuntimeError(...)] *)
Definition check_forbidden (snippet : string) : result unit :=
  foldM (λ _ f,
    if contains f snippet
    then raise (RuntimeError ("LLM code contains forbidden pattern: " +:+ f +:+ nl +:+ snippet))
    else ret tt)
  forbidden tt.

Definition custom_rules (H : Host) (input_data : InputData) (ns : Namespace)
    : result Namespace :=
  let custom := strip (default "" (rules_text input_data)) in
  if bool_decide (custom = "") then ret ns
  else
    let prompt := build_codegen_prompt H custom in
    let* reply := call_llm H prompt in
    let* text :=
      match reply with
      | Some text => ret text
      | None => raise (AttributeError "'NoneType' object has no attribute 'strip'")
      end in
    let snippet := clean_snippet text in
    let* _ := check_forbidden snippet in
    match exec H snippet ns with
    | inr ns' => ret ns'
    | inl e =>
        raise (RuntimeError ("Error executing custom-rule code:" +:+ nl +:+ snippet
                             +:+ nl +:+ nl +:+ exn_msg e))
    end.

(** ** Steps 1 to 3: dates, variables and the core rules *)

(** [days]: one formatted date per day from [start] to [end]; [range] of a
    number that is not positive is empty. *)
Definition expand_days (H : Host) (start end_ : Z) : list string :=
  (λ i : nat, strftime H (start + Z.of_nat i)%Z) <$> seq 0 (Z.to_nat (end_ - start + 1)).

Definition core_model (H : Host) (input_data : InputData) : result Namespace :=
  let model := empty_model in
  let seniors := seniors input_data in
  let juniors := juniors input_data in
  let nurses := (seniors ++ juniors)%list in
  let* start := strptime H (start_date input_data) in
  let* end_ := strptime H (end_date input_data) in
  let days := expand_days H start end_ in
  let '(model, work) := create_variables nurses (length days) (model, ∅) in
  let declared_mc := default ∅ (mc_preferences input_data) in
  let* model := add_mc declared_mc work nurses days model in
  let* model := add_single_assignment work nurses (length days) model in
  let* model := add_shift_coverage work nurses seniors (length days)
                  (min_nurses_per_shift input_data)
                  (min_seniors_per_shift input_data) model in
  let* model := add_am_percentage work nurses seniors (length days)
                  (min_am_coverage input_data)
                  (min_senior_am_coverage input_data) model in
  let max_h := max_hours_per_week input_data in
  let min_h := min_hours_per_week input_data in
  let* model := add_weekly_hours work nurses (length days) max_h min_h model in
  ret (mkNs model work nurses seniors juniors days shift_names
            (default [] (day_of_week input_data))).

(** ** Steps 5 and 6: solving and formatting the output *)

(** The values of the returned object. *)
Inductive Value : Type :=
| Entries (l : list (string * string * string))   (* [[n, date, s], ...] *)
| Message (msg : string).

Abbreviation Output := (gmap string Value).

Definition project (sol : assignment) (ns : Namespace)
    : result (list (string * string * string)) :=
  foldM (λ out n,
    foldM (λ out d,
      foldM (λ out s,
        let* v := work_get (ns_work ns) (n, d, s) in
        if negb (sol v =? 0)%Z then
          match ns_days ns !! d with
          | Some day => ret (out ++ [(n, day, s)])%list
          | None => raise (IndexError "list index out of range")
          end
        else ret out)
      (ns_shift_names ns) out)
    (seq 0 (length (ns_days ns))) out)
  (ns_nurses ns) [].

Definition format_output (status : CpSolverStatus) (sol : assignment)
    (ns : Namespace) : result Output :=
  let output : Output := {[ "s" := Entries [] ]} in
  if is_success status then
    let* entries := project sol ns in
    ret (<["s" := Entries entries]> output)
  else
    ret (<["error" := Message "No feasible solution found."]> output).

(** Steps 1 to 4: the model handed to the solver. *)
Definition build_model (H : Host) (input_data : InputData) : result Namespace :=
  let* ns := core_model H input_data in
  custom_rules H input_data ns.

(** The structured constraint description that the caller obtained from
    the translator's parse step: any JSON value, [JNull] for [None]. *)
#[local] Unset Elimination Schemes.
Inductive Json : Type :=
| JNull
| JBool (b : bool)
| JNum (z : Z)
| JStr (s : string)
| JList (l : list Json)
| JDict (l : list (string * Json)).
#[local] Set Elimination Schemes.

Definition build_and_solve (H : Host) (input_data : InputData)
    (constraints : Json) : result Output :=
  let* ns := build_model H input_data in
  let '(status, sol) := Solve H (ns_model ns) in
  format_output status sol ns.

(** ** A reference host

    A calendar that follows CPython's [datetime] on ISO dates, a solver that
    tries a given list of candidate assignments, and no translator. The
    general theorems below hold for every host; this one runs the code on
    concrete requests. *)

Module Calendar.
Local Open Scope Z_scope.

Definition is_leap (y : Z) : bool :=
  (y mod 4 =? 0) && (negb (y mod 100 =? 0) || (y mod 400 =? 0)).

Definition days_in_month (y m : Z) : Z :=
  if m =? 2 then (if is_leap y then 29 else 28)
  else if (m =? 4) || (m =? 6) || (m =? 9) || (m =? 11) then 30 else 31.

(** [_DAYS_BEFORE_MONTH] *)
Definition DAYS_BEFORE_MONTH : list Z :=
  [-1; 0; 31; 59; 90; 120; 151; 181; 212; 243; 273; 304; 334].

Definition days_before_month (y m : Z) : Z :=
  default 0 (DAYS_BEFORE_MONTH !! Z.to_nat m)
  + (if (2 <? m) && is_leap y then 1 else 0).

Definition days_before_year (y : Z) : Z :=
  (y - 1) * 365 + (y - 1) / 4 - (y - 1) / 100 + (y - 1) / 400.

(** [_ymd2ord] *)
Definition ymd2ord (y m d : Z) : Z :=
  days_before_year y + days_before_month y m + d.

(** [_ord2ymd] *)
Definition ord2ymd (n : Z) : Z * Z * Z :=
  let n := n - 1 in
  let n400 := n / 146097 in let n := n mod 146097 in
  let year := n400 * 400 + 1 in
  let n100 := n / 36524 in let n := n mod 36524 in
  let n4 := n / 1461 in let n := n mod 1461 in
  let n1 := n / 365 in let n := n mod 365 in
  let year := year + n100 * 100 + n4 * 4 + n1 in
  if (n1 =? 4) || (n100 =? 4) then (year - 1, 12, 31)
  else
    let leapyear := (n1 =? 3) && (negb (n4 =? 24) || (n100 =? 3)) in
    let month := Z.shiftr (n + 50) 5 in
    let preceding := default 0 (DAYS_BEFORE_MONTH !! Z.to_nat month)
                     + (if (2 <? month) && leapyear then 1 else 0) in
    if n <? preceding then
      let month := month - 1 in
      let preceding := preceding
        - ((if month =? 2 then 28
            else if (month =? 4) || (month =? 6) || (month =? 9) || (month =? 11)
                 then 30 else 31)
           + (if (month =? 2) && leapyear then 1 else 0)) in
      (year, month, n - preceding + 1)
    else (year, month, n - preceding + 1).

Definition digit (c : ascii) : option Z :=
  let k := nat_of_ascii c in
  if ((48 <=? k) && (k <=? 57))%nat then Some (Z.of_nat k - 48) else None.

(** The ways [%m] ([1[0-2]|0[1-9]|[1-9]]) can match at the start of a
    text, in the order the pattern tries them, each with the rest. *)
Definition month_matches (s : string) : list (Z * string) :=
  match s with
  | String a r1 =>
      (match r1 with
       | String b r2 =>
           match digit a, digit b with
           | Some x, Some y =>
               if ((x =? 1) && (y <=? 2)) || ((x =? 0) && (1 <=? y))
               then [(10 * x + y, r2)] else []
           | _, _ => []
           end
       | EmptyString => []
       end)
      ++ (match digit a with
          | Some x => if 1 <=? x then [(x, r1)] else []
          | None => []
          end)
  | EmptyString => []
  end%list.

(** [%d]: [3[0-1]|[1-2]\d|0[1-9]|[1-9]| [1-9]] *)
Definition day_matches (s : string) : list (Z * string) :=
  match s with
  | String a r1 =>
      (match r1 with
       | String b r2 =>
           match digit a, digit b with
           | Some x, Some y =>
               if ((x =? 3) && (y <=? 1)) || (x =? 1) || (x =? 2)
                  || ((x =? 0) && (1 <=? y))
               then [(10 * x + y, r2)] else []
           | None, Some y =>
               if (nat_of_ascii a =? 32)%nat && (1 <=? y) then [(y, r2)] else []
           | _, _ => []
           end
       | EmptyString => []
       end)
      ++ (match digit a with
          | Some x => if 1 <=? x then [(x, r1)] else []
          | None => []
          end)
  | EmptyString => []
  end%list.

Definition year_match (s : string) : option (Z * string) :=
  match s with
  | String a (String b (String c (String d r))) =>
      match digit a, digit b, digit c, digit d with
      | Some x, Some y, Some z, Some w => Some (1000 * x + 100 * y + 10 * z + w, r)
      | _, _, _, _ => None
      end
  | _ => None
  end.

Definition dash (s : string) : option string :=
  match s with
  | String c r => if (nat_of_ascii c =? 45)%nat then Some r else None
  | EmptyString => None
  end.

(** The first way the pattern [%Y-%m-%d] matches a prefix of the text. *)
Definition match_format (s : string) : option (Z * Z * Z * string) :=
  '(y, r) ← year_match s;
  r ← dash r;
  head (omap (λ '(m, r),
                r ← dash r;
                '(d, r) ← head (day_matches r);
                Some (y, m, d, r))
             (month_matches r)).

Definition bad_format (s : string) : exn :=
  ValueError ("time data '" +:+ s +:+ "' does not match format '%Y-%m-%d'").

(** [datetime.datetime.strptime(s, "%Y-%m-%d")], as an ordinal. *)
Definition strptime (s : string) : result Z :=
  match match_format s with
  | None => raise (bad_format s)
  | Some (y, m, d, rest) =>
      if negb (bool_decide (rest = "")) then
        raise (ValueError ("unconverted data remains: " +:+ rest))
      else if y <? 1 then raise (ValueError "year 0 is out of range")
      else if days_in_month y m <? d then
        raise (ValueError "day is out of range for month")
      else ret (ymd2ord y m d)
  end.

Definition pad (width : nat) (z : Z) : string :=
  let t := pretty z in
  String.concat "" (replicate (width - String.length t)%nat "0") +:+ t.

(** [strftime("%Y-%m-%d")], for the years of four digits. *)
Definition strftime (n : Z) : string :=
  let '(y, m, d) := ord2ymd n in
  pad 4 y +:+ "-" +:+ pad 2 m +:+ "-" +:+ pad 2 d.
End Calendar.

(** A solver that returns the first of its candidates that satisfies the
    model, and reports [UNKNOWN] when none does. *)
Definition satisfiesb (sol : assignment) (m : CpModel) : bool :=
  forallb (λ v, (sol v =? 0)%Z || (sol v =? 1)%Z) (seq 0 (length (variables m)))
  && forallb (holds sol) (constraints m).

Definition first_solution (candidates : list assignment) (m : CpModel)
    : CpSolverStatus * assignment :=
  match find (λ sol, satisfiesb sol m) candidates with
  | Some sol => (FEASIBLE, sol)
  | None => (UNKNOWN, λ _, 0%Z)
  end.

(** The assignment that sets exactly the listed variables. *)
Definition ones (vs : list var) : assignment :=
  λ v, if bool_decide (v ∈ vs) then 1%Z else 0%Z.

Definition reference_host (candidates : list assignment) : Host :=
  mkHost Calendar.strptime Calendar.strftime
         (λ rules, rules)
         (λ _, raise (RuntimeError "Unsupported PROVIDER: none"))
         (λ _ ns, ret ns)
         (first_solution candidates).

(** * Properties *)

(** ** The error monad *)

Lemma bind_inr {A B} (r : result A) (k : A → result B) (b : B) :
  bind r k = inr b ↔ ∃ a, r = inr a ∧ k a = inr b.
Proof.
  destruct r as [e|a]; simpl; split.
  - discriminate.
  - intros (a & Ha & _). discriminate.
  - eauto.
  - intros (a' & [= ->] & Hk). exact Hk.
Qed.

Lemma mapM_total {A B} (f : A → result B) (g : A → B) (l : list A) :
  (∀ x, x ∈ l → f x = inr (g x)) → mapM f l = inr (g <$> l).
Proof.
  induction l as [|x l IH]; intros Hf; simpl; [done|].
  rewrite Hf by constructor. simpl.
  rewrite IH; [done|]. intros y Hy. apply Hf. by constructor.
Qed.

(** A loop whose body appends to its state, as [model.Add] and
    [list.append] do, appends the concatenation of what the passes add. *)
Lemma foldM_act {S A B} (act : S → list B → S) (f : S → A → result S)
    (g : A → list B) (l : list A) (s : S) :
  (∀ s, act s [] = s) →
  (∀ s a b, act (act s a) b = act s (a ++ b)) →
  (∀ x s, x ∈ l → f s x = inr (act s (g x))) →
  foldM f l s = inr (act s (l ≫= g)).
Proof.
  intros Hnil Happ. revert s.
  induction l as [|x l IH]; intros s Hf; simpl.
  - by rewrite Hnil.
  - rewrite Hf by constructor. simpl.
    rewrite IH.
    + by rewrite Happ.
    + intros y s' Hy. apply Hf. by constructor.
Qed.

Lemma foldM_ext_in {S A} (f g : S → A → result S) (l : list A) (s : S) :
  (∀ x s, x ∈ l → f s x = g s x) → foldM f l s = foldM g l s.
Proof.
  revert s. induction l as [|x l IH]; intros s Hfg; simpl; [done|].
  rewrite Hfg by constructor.
  destruct (g s x) as [e|s']; simpl; [done|].
  apply IH. intros y s'' Hy. apply Hfg. by constructor.
Qed.

(** ** Models *)

(** [model.Add] of each constraint of a list, in order. *)
Definition add_all (m : CpModel) (cts : list Constraint) : CpModel :=
  mkModel (variables m) (constraints m ++ cts).

Lemma add_all_nil m : add_all m [] = m.
Proof. destruct m. unfold add_all. simpl. by rewrite app_nil_r. Qed.

Lemma add_all_app m a b : add_all (add_all m a) b = add_all m (a ++ b).
Proof. unfold add_all. simpl. by rewrite app_assoc. Qed.

Lemma Add_add_all ct m : Add ct m = add_all m [ct].
Proof. done. Qed.

Lemma foldM_add_all {A} (f : CpModel → A → result CpModel)
    (g : A → list Constraint) (l : list A) (m : CpModel) :
  (∀ x m, x ∈ l → f m x = inr (add_all m (g x))) →
  foldM f l m = inr (add_all m (l ≫= g)).
Proof. apply (foldM_act add_all); [apply add_all_nil | apply add_all_app]. Qed.

Lemma foldM_append {A B} (f : list B → A → result (list B))
    (g : A → list B) (l : list A) (out : list B) :
  (∀ x out, x ∈ l → f out x = inr (out ++ g x)) →
  foldM f l out = inr (out ++ (l ≫= g)).
Proof.
  apply (foldM_act (λ out ys, out ++ ys)).
  - intros. by rewrite app_nil_r.
  - intros. by rewrite app_assoc.
Qed.

(** The sum of a list of integers. *)
Definition sumZ (l : list Z) : Z := foldr Z.add 0%Z l.


Lemma eval_py_sum (sol : assignment) (es : list LinearExpr) :
  eval sol (py_sum es) = sumZ (eval sol <$> es).
Proof.
  unfold py_sum.
  assert (∀ acc, eval sol (foldl LAdd acc es) = (eval sol acc + sumZ (eval sol <$> es))%Z) as Hacc.
  { induction es as [|e es IH]; intros acc; cbn [foldl fmap list_fmap sumZ foldr].
    - lia.
    - rewrite IH. cbn [eval]. fold (sumZ (eval sol <$> es)). lia. }
  rewrite Hacc. cbn [eval]. lia.
Qed.

Lemma eval_py_sum_vars (sol : assignment) (vs : list var) :
  eval sol (py_sum (LVar <$> vs)) = sumZ (sol <$> vs).
Proof.
  rewrite eval_py_sum. f_equal. rewrite <- list_fmap_compose. done.
Qed.

(** ** The dictionary [work] *)

(** The variable under a key that is present. *)
Definition wv (work : work_map) (k : work_key) : var := default 0 (work !! k).

(** Every key the core rules read is present, and is a variable of the model. *)
Definition work_defined (work : work_map) (m : CpModel)
    (nurses : list string) (D : nat) : Prop :=
  ∀ n d s, n ∈ nurses → d < D → s ∈ shift_names →
    ∃ v, work !! (n, d, s) = Some v ∧ v < length (variables m).

Lemma work_get_Some (work : work_map) k v :
  work !! k = Some v → work_get work k = inr (wv work k).
Proof. intros Hk. unfold work_get, wv. rewrite Hk. reflexivity. Qed.

(** Every key the core rules read is present. *)
Definition work_present (work : work_map) (nurses : list string) (D : nat) : Prop :=
  ∀ n d s, n ∈ nurses → d < D → s ∈ shift_names → is_Some (work !! (n, d, s)).

Lemma work_defined_present work m nurses D :
  work_defined work m nurses D → work_present work nurses D.
Proof.
  intros Hw n d s Hn Hd Hs. destruct (Hw n d s Hn Hd Hs) as (v & Hv & _). eauto.
Qed.

Lemma work_get_defined work nurses D n d s :
  work_present work nurses D → n ∈ nurses → d < D → s ∈ shift_names →
  work_get work (n, d, s) = inr (wv work (n, d, s)).
Proof.
  intros Hw Hn Hd Hs. destruct (Hw n d s Hn Hd Hs) as (v & Hv).
  by eapply work_get_Some.
Qed.

Lemma working_shifts_subset s : s ∈ working_shifts → s ∈ shift_names.
Proof.
  unfold working_shifts, shift_names.
  rewrite !elem_of_cons, !elem_of_nil. tauto.
Qed.

(** The keys in the order the three loops of step 2 visit them. *)
Definition all_keys (nurses : list string) (D : nat) : list work_key :=
  n ← nurses; d ← seq 0 D; s ← shift_names; [(n, d, s)].

Definition new_var (st : CpModel * work_map) (k : work_key) : CpModel * work_map :=
  let '(model, work) := st in
  let '(model', v) := NewBoolVar (var_name k.1.1 k.1.2 k.2) model in
  (model', <[k := v]> work).

Lemma foldl_bind {A B C} (f : A → C → A) (g : B → list C) (l : list B) (a : A) :
  foldl f a (l ≫= g) = foldl (λ a x, foldl f a (g x)) a l.
Proof.
  revert a. induction l as [|x l IH]; intros a; simpl; [done|].
  by rewrite foldl_app, IH.
Qed.

Lemma foldl_pointwise {A B} (f g : A → B → A) (l : list B) (a : A) :
  (∀ a x, f a x = g a x) → foldl f a l = foldl g a l.
Proof.
  intros Hfg. revert a. induction l as [|x l IH]; intros a; simpl; [done|].
  by rewrite Hfg, IH.
Qed.

Lemma create_variables_flat nurses D st :
  create_variables nurses D st = foldl new_var st (all_keys nurses D).
Proof.
  unfold create_variables, all_keys.
  rewrite foldl_bind. apply foldl_pointwise. intros st1 n.
  rewrite foldl_bind. apply foldl_pointwise. intros st2 d.
  rewrite foldl_bind. apply foldl_pointwise. intros [m w] s. done.
Qed.

(** What step 2 leaves: the constraints untouched, the old entries of
    [work] kept or overwritten, and an entry for each key visited, all of
    them variables of the model. *)
Lemma foldl_new_var (ks : list work_key) (m : CpModel) (w : work_map) :
  (∀ k v, w !! k = Some v → v < length (variables m)) →
  let st := foldl new_var (m, w) ks in
  constraints st.1 = constraints m
  ∧ length (variables st.1) = length (variables m) + length ks
  ∧ (∀ k v, st.2 !! k = Some v → v < length (variables st.1))
  ∧ (∀ k, k ∈ ks → is_Some (st.2 !! k)).
Proof.
  revert m w. induction ks as [|k ks IH]; intros m w Hb; simpl.
  - repeat split; [lia | exact Hb | intros k Hk; inversion Hk].
  - set (m1 := mkModel (variables m ++ [var_name k.1.1 k.1.2 k.2]) (constraints m)).
    set (w1 := <[k := length (variables m)]> w).
    assert (∀ k' v, w1 !! k' = Some v → v < length (variables m1)) as Hb1.
    { intros k' v. unfold w1, m1. simpl. rewrite length_app. simpl.
      destruct (decide (k = k')) as [->|Hne].
      - rewrite lookup_insert_eq. intros [= <-]. lia.
      - rewrite lookup_insert_ne by done. intros Hv. apply Hb in Hv. lia. }
    destruct (IH m1 w1 Hb1) as (Hc & Hl & Hbound & Hdef).
    repeat split.
    + exact Hc.
    + rewrite Hl. unfold m1. simpl. rewrite length_app. simpl. lia.
    + exact Hbound.
    + intros k' Hk'. apply elem_of_cons in Hk' as [->|Hk']; [|by apply Hdef].
      clear -Hb1. revert m1 w1 Hb1.
      assert (∀ ks (m : CpModel) (w : work_map), is_Some (w !! k) →
                is_Some ((foldl new_var (m, w) ks).2 !! k)) as Hkeep.
      { clear. induction ks as [|k0 ks IH]; intros m w Hs; simpl; [done|].
        apply IH. destruct (decide (k0 = k)) as [->|Hne].
        - rewrite lookup_insert_eq. eauto.
        - by rewrite lookup_insert_ne. }
      intros m1 w1 _. apply Hkeep. unfold w1. rewrite lookup_insert_eq. eauto.
Qed.

Lemma elem_of_all_keys nurses D n d s :
  n ∈ nurses → d < D → s ∈ shift_names → (n, d, s) ∈ all_keys nurses D.
Proof.
  intros Hn Hd Hs. unfold all_keys.
  apply list_elem_of_bind. exists n. split; [|done].
  apply list_elem_of_bind. exists d. split; [|apply elem_of_seq; lia].
  apply list_elem_of_bind. exists s. split; [|done].
  by apply list_elem_of_singleton.
Qed.

Lemma create_variables_spec nurses D :
  let st := create_variables nurses D (empty_model, ∅) in
  constraints st.1 = []
  ∧ length (variables st.1) = length (all_keys nurses D)
  ∧ work_defined st.2 st.1 nurses D.
Proof.
  rewrite create_variables_flat.
  destruct (foldl_new_var (all_keys nurses D) empty_model ∅) as (Hc & Hl & Hb & Hd).
  { intros k v. by rewrite lookup_empty. }
  repeat split; [exact Hc | exact Hl |].
  intros n d s Hn Hlt Hs.
  destruct (Hd (n, d, s)) as [v Hv]; [by apply elem_of_all_keys|].
  exists v. split; [done|]. by eapply Hb.
Qed.

Lemma all_keys_no_days nurses : all_keys nurses 0 = [].
Proof. unfold all_keys. induction nurses as [|n l IH]; simpl; done. Qed.

Lemma elem_of_enumerate {A} (l : list A) (i : nat) (x : A) :
  (i, x) ∈ enumerate l ↔ l !! i = Some x.
Proof.
  unfold enumerate. rewrite elem_of_lookup_imap. split.
  - intros (j & y & [= -> ->] & Hj). exact Hj.
  - intros Hi. eauto.
Qed.

(** ** The core rules in closed form

    With every key present, each rule adds to the model the list of
    constraints given here, in this order. *)

Definition declared (declared_mc : gmap string (list string)) (n : string)
    : list string := default [] (declared_mc !! n).

Definition mc_constraints (declared_mc : gmap string (list string))
    (work : work_map) (nurses days : list string) : list Constraint :=
  n ← nurses; dd ← enumerate days;
  [Linear (LVar (wv work (n, dd.1, "MC"))) OpEq
          (LConst (if bool_decide (dd.2 ∈@{gset string}
                                      list_to_set (declared declared_mc n))
                   then 1 else 0))].

Definition single_assignment_constraints (work : work_map)
    (nurses : list string) (D : nat) : list Constraint :=
  n ← nurses; d ← seq 0 D;
  [Linear (py_sum (LVar <$> ((λ s, wv work (n, d, s)) <$> shift_names)))
          OpEq (LConst 1)].

Definition shift_coverage_constraints (work : work_map)
    (nurses seniors : list string) (D : nat) (min_nurses min_seniors : Z)
    : list Constraint :=
  d ← seq 0 D; s ← working_shifts;
  [Linear (py_sum (LVar <$> ((λ n, wv work (n, d, s)) <$> nurses)))
          OpGe (LConst min_nurses);
   Linear (py_sum (LVar <$> ((λ n, wv work (n, d, s)) <$> seniors)))
          OpGe (LConst min_seniors)].

Definition am_percentage_constraint (work : work_map) (ns : list string)
    (d : nat) (pct : Z) : list Constraint :=
  if (0 <? pct)%Z then
    [Linear (LMul 100 (py_sum (LVar <$> ((λ n, wv work (n, d, "AM")) <$> ns))))
            OpGe
            (LMul pct (py_sum (LVar <$> (wv work <$> working_keys ns d))))]
  else [].

Definition am_percentage_constraints (work : work_map)
    (nurses seniors : list string) (D : nat) (am_cov senior_am_cov : option Z)
    : list Constraint :=
  d ← seq 0 D;
  am_percentage_constraint work nurses d (default 0%Z am_cov)
  ++ am_percentage_constraint work seniors d (default 0%Z senior_am_cov).

Definition hours (s : string) : Z := default 0%Z (shift_hours !! s).

Definition week_keys (w : nat) : list (nat * string) :=
  d ← seq (w * 7) 7; s ← working_shifts; [(d, s)].

Definition week_total (work : work_map) (n : string) (w : nat) : LinearExpr :=
  py_sum ((λ ds, LMul (hours ds.2) (LVar (wv work (n, ds.1, ds.2)))) <$> week_keys w).

Definition weekly_hours_constraints (work : work_map) (nurses : list string)
    (D : nat) (max_h min_h : Z) : list Constraint :=
  n ← nurses; w ← seq 0 (D / 7);
  [Linear (week_total work n w) OpLe (LConst max_h);
   Linear (week_total work n w) OpGe (LConst min_h)].

Section closed_forms.
Variables (work : work_map) (nurses seniors : list string) (D : nat).
Hypothesis Hwork : work_present work nurses D.
Hypothesis Hseniors : ∀ n, n ∈ seniors → n ∈ nurses.

Lemma mapM_shifts n d :
  n ∈ nurses → d < D →
  mapM (λ s, work_get work (n, d, s)) shift_names
  = inr ((λ s, wv work (n, d, s)) <$> shift_names).
Proof.
  intros Hn Hd. apply mapM_total. intros s Hs.
  by eapply work_get_defined.
Qed.

Lemma mapM_nurses (ns : list string) d s :
  (∀ n, n ∈ ns → n ∈ nurses) → d < D → s ∈ shift_names →
  mapM (λ n, work_get work (n, d, s)) ns
  = inr ((λ n, wv work (n, d, s)) <$> ns).
Proof.
  intros Hns Hd Hs. apply mapM_total. intros n Hn.
  eapply work_get_defined; eauto.
Qed.

Lemma mapM_working_keys (ns : list string) d :
  (∀ n, n ∈ ns → n ∈ nurses) → d < D →
  mapM (work_get work) (working_keys ns d)
  = inr (wv work <$> working_keys ns d).
Proof.
  intros Hns Hd. apply mapM_total. intros [[n d'] s] Hk.
  unfold working_keys in Hk.
  apply list_elem_of_bind in Hk as (n' & Hk & Hn').
  apply list_elem_of_bind in Hk as (s' & Hk & Hs').
  apply list_elem_of_singleton in Hk as [= -> -> ->].
  eapply work_get_defined; eauto using working_shifts_subset.
Qed.

Lemma add_mc_closed declared_mc (days : list string) (m : CpModel) :
  length days = D →
  add_mc declared_mc work nurses days m
  = inr (add_all m (mc_constraints declared_mc work nurses days)).
Proof.
  intros HD. unfold add_mc, mc_constraints.
  apply foldM_add_all. intros n m1 Hn.
  apply foldM_add_all. intros [d day_str] m2 Hd.
  apply elem_of_enumerate, lookup_lt_Some in Hd.
  erewrite work_get_defined; eauto using working_shifts_subset; cycle 1.
  { lia. }
  { unfold shift_names. rewrite !elem_of_cons. tauto. }
  simpl. unfold declared. by case_bool_decide.
Qed.

Lemma add_single_assignment_closed (m : CpModel) :
  add_single_assignment work nurses D m
  = inr (add_all m (single_assignment_constraints work nurses D)).
Proof.
  unfold add_single_assignment, single_assignment_constraints.
  apply foldM_add_all. intros n m1 Hn.
  apply foldM_add_all. intros d m2 Hd.
  apply elem_of_seq in Hd.
  rewrite mapM_shifts by (done || lia). done.
Qed.

Lemma add_shift_coverage_closed min_nurses min_seniors (m : CpModel) :
  add_shift_coverage work nurses seniors D min_nurses min_seniors m
  = inr (add_all m (shift_coverage_constraints work nurses seniors D
                                               min_nurses min_seniors)).
Proof.
  unfold add_shift_coverage, shift_coverage_constraints.
  apply foldM_add_all. intros d m1 Hd.
  apply foldM_add_all. intros s m2 Hs.
  apply elem_of_seq in Hd. apply working_shifts_subset in Hs.
  rewrite !mapM_nurses by (done || lia). simpl.
  by rewrite !Add_add_all, add_all_app.
Qed.

Lemma add_am_percentage_closed am_cov senior_am_cov (m : CpModel) :
  add_am_percentage work nurses seniors D am_cov senior_am_cov m
  = inr (add_all m (am_percentage_constraints work nurses seniors D
                                              am_cov senior_am_cov)).
Proof.
  unfold add_am_percentage, am_percentage_constraints.
  apply foldM_add_all. intros d m1 Hd. apply elem_of_seq in Hd.
  assert ("AM" ∈ shift_names) as HAM.
  { unfold shift_names. rewrite !elem_of_cons. tauto. }
  rewrite !mapM_working_keys by (done || lia). simpl.
  unfold am_percentage_constraint.
  destruct (0 <? default 0 am_cov)%Z; destruct (0 <? default 0 senior_am_cov)%Z;
    rewrite ?mapM_nurses by (done || lia); simpl;
    rewrite ?Add_add_all, ?add_all_app, ?add_all_nil; done.
Qed.

Lemma shift_hours_get_working s :
  s ∈ working_shifts → shift_hours_get s = inr (hours s).
Proof.
  unfold working_shifts. rewrite !elem_of_cons, elem_of_nil.
  intros [->|[->|[->|[]]]]; vm_compute; reflexivity.
Qed.

Lemma add_weekly_hours_closed max_h min_h (m : CpModel) :
  add_weekly_hours work nurses D max_h min_h m
  = inr (add_all m (weekly_hours_constraints work nurses D max_h min_h)).
Proof.
  unfold add_weekly_hours, weekly_hours_constraints.
  apply foldM_add_all. intros n m1 Hn.
  apply foldM_add_all. intros w m2 Hw. apply elem_of_seq in Hw.
  assert (w * 7 + 7 <= D) as Hweek.
  { pose proof (Nat.div_mod_eq D 7). lia. }
  erewrite (mapM_total _ (λ ds, LMul (hours ds.2) (LVar (wv work (n, ds.1, ds.2))))).
  - simpl. unfold week_total, week_keys.
    by rewrite !Add_add_all, add_all_app.
  - intros [d s] Hds.
    apply list_elem_of_bind in Hds as (d' & Hds & Hd').
    apply list_elem_of_bind in Hds as (s' & Hds & Hs').
    apply list_elem_of_singleton in Hds as [= -> ->].
    apply elem_of_seq in Hd'.
    rewrite shift_hours_get_working by done. simpl.
    erewrite work_get_defined; eauto using working_shifts_subset. lia.
Qed.
End closed_forms.

(** ** The model of the core rules *)

Definition core_constraints (input_data : InputData) (work : work_map)
    (nurses days : list string) : list Constraint :=
  mc_constraints (default ∅ (mc_preferences input_data)) work nurses days
  ++ single_assignment_constraints work nurses (length days)
  ++ shift_coverage_constraints work nurses (seniors input_data) (length days)
       (min_nurses_per_shift input_data) (min_seniors_per_shift input_data)
  ++ am_percentage_constraints work nurses (seniors input_data) (length days)
       (min_am_coverage input_data) (min_senior_am_coverage input_data)
  ++ weekly_hours_constraints work nurses (length days)
       (max_hours_per_week input_data) (min_hours_per_week input_data).

(** The namespace that steps 1 to 3 reach when both dates parse. *)
Definition core_namespace (H : Host) (input_data : InputData) (start end_ : Z)
    : Namespace :=
  let nurses := seniors input_data ++ juniors input_data in
  let days := expand_days H start end_ in
  let st := create_variables nurses (length days) (empty_model, ∅) in
  mkNs (mkModel (variables st.1) (core_constraints input_data st.2 nurses days))
       st.2 nurses (seniors input_data) (juniors input_data) days shift_names
       (default [] (day_of_week input_data)).

(** Steps 1 to 3 raise nothing once the two dates are parsed. *)
Lemma core_model_closed H input_data start end_ :
  strptime H (start_date input_data) = inr start →
  strptime H (end_date input_data) = inr end_ →
  core_model H input_data = inr (core_namespace H input_data start end_).
Proof.
  intros Hs He. unfold core_model, core_namespace. rewrite Hs, He. simpl.
  set (nurses := seniors input_data ++ juniors input_data).
  set (days := expand_days H start end_).
  pose proof (create_variables_spec nurses (length days)) as Hcv.
  destruct (create_variables nurses (length days) (empty_model, ∅)) as [m work].
  simpl in Hcv. destruct Hcv as (Hc & _ & Hw).
  apply work_defined_present in Hw.
  assert (∀ n, n ∈ seniors input_data → n ∈ nurses) as Hsen.
  { intros n Hn. unfold nurses. apply elem_of_app. by left. }
  erewrite add_mc_closed by eauto. simpl.
  erewrite add_single_assignment_closed by eauto. simpl.
  erewrite add_shift_coverage_closed by eauto. simpl.
  erewrite add_am_percentage_closed by eauto. simpl.
  erewrite add_weekly_hours_closed by eauto. simpl.
  unfold ret. do 2 f_equal.
  rewrite !add_all_app. unfold add_all, core_constraints. simpl.
  by rewrite Hc.
Qed.

Lemma core_model_inv H input_data ns :
  core_model H input_data = inr ns →
  ∃ start end_,
    strptime H (start_date input_data) = inr start
    ∧ strptime H (end_date input_data) = inr end_
    ∧ ns = core_namespace H input_data start end_.
Proof.
  intros Hcore.
  destruct (strptime H (start_date input_data)) as [e|start] eqn:Hs.
  { unfold core_model in Hcore. rewrite Hs in Hcore. discriminate. }
  destruct (strptime H (end_date input_data)) as [e|end_] eqn:He.
  { unfold core_model in Hcore. rewrite Hs, He in Hcore. discriminate. }
  exists start, end_. repeat split.
  rewrite (core_model_closed _ _ _ _ Hs He) in Hcore. congruence.
Qed.

Lemma core_namespace_work_defined H input_data start end_ :
  let ns := core_namespace H input_data start end_ in
  work_defined (ns_work ns) (ns_model ns) (ns_nurses ns) (length (ns_days ns)).
Proof.
  unfold core_namespace. simpl.
  destruct (create_variables_spec (seniors input_data ++ juniors input_data)
              (length (expand_days H start end_))) as (_ & _ & Hw).
  exact Hw.
Qed.

(** ** The custom fragment and the solver, as the core relies on them *)

(** The fragment may add constraints and auxiliary variables; it leaves the
    variables of the builder, the constraints already there and the shared
    lists as they are. *)
Record extends (ns ns' : Namespace) : Prop := mkExtends {
  ext_work : ns_work ns' = ns_work ns;
  ext_nurses : ns_nurses ns' = ns_nurses ns;
  ext_seniors : ns_seniors ns' = ns_seniors ns;
  ext_days : ns_days ns' = ns_days ns;
  ext_shift_names : ns_shift_names ns' = ns_shift_names ns;
  ext_variables :
    length (variables (ns_model ns)) ≤ length (variables (ns_model ns'));
  ext_constraints :
    ∀ ct, ct ∈ constraints (ns_model ns) → ct ∈ constraints (ns_model ns')
}.

Lemma extends_refl ns : extends ns ns.
Proof. by constructor. Qed.

Definition fragments_only_extend (H : Host) : Prop :=
  ∀ snippet ns ns', exec H snippet ns = inr ns' → extends ns ns'.

(** A successful status comes with an assignment that satisfies the model. *)
Definition solver_sound (H : Host) : Prop :=
  ∀ m st sol, Solve H m = (st, sol) → is_success st = true → satisfies sol m.

Lemma custom_rules_inv H input_data ns ns' :
  custom_rules H input_data ns = inr ns' →
  ns' = ns ∨ ∃ snippet, exec H snippet ns = inr ns'.
Proof.
  unfold custom_rules. case_bool_decide as Hc.
  - intros [= ->]. by left.
  - intros Hr. right.
    apply bind_inr in Hr as (reply & _ & Hr).
    apply bind_inr in Hr as (text & _ & Hr).
    apply bind_inr in Hr as (u & _ & Hr).
    destruct (exec H (clean_snippet text) ns) as [e|ns1] eqn:Hex; [discriminate|].
    injection Hr as <-. eauto.
Qed.

Lemma build_model_inv H input_data ns' :
  fragments_only_extend H →
  build_model H input_data = inr ns' →
  ∃ start end_,
    strptime H (start_date input_data) = inr start
    ∧ strptime H (end_date input_data) = inr end_
    ∧ extends (core_namespace H input_data start end_) ns'.
Proof.
  intros Hfrag Hb. unfold build_model in Hb.
  apply bind_inr in Hb as (ns & Hcore & Hcustom).
  apply core_model_inv in Hcore as (start & end_ & Hs & He & ->).
  exists start, end_. split; [done|]. split; [done|].
  apply custom_rules_inv in Hcustom as [->|[snippet Hex]].
  - apply extends_refl.
  - by eapply Hfrag.
Qed.

(** What a successful solve gives about the model of the core rules. *)
Record core_solution (H : Host) (input_data : InputData) (ns : Namespace)
    (sol : assignment) : Prop := mkCoreSolution {
  cs_nurses : ns_nurses ns = seniors input_data ++ juniors input_data;
  cs_seniors : ns_seniors ns = seniors input_data;
  cs_shift_names : ns_shift_names ns = shift_names;
  cs_days : ∃ start end_,
      strptime H (start_date input_data) = inr start
      ∧ strptime H (end_date input_data) = inr end_
      ∧ ns_days ns = expand_days H start end_;
  cs_defined : ∀ n d s,
      n ∈ ns_nurses ns → d < length (ns_days ns) → s ∈ shift_names →
      ∃ v, ns_work ns !! (n, d, s) = Some v ∧ (sol v = 0 ∨ sol v = 1)%Z;
  cs_holds : ∀ ct,
      ct ∈ core_constraints input_data (ns_work ns) (ns_nurses ns) (ns_days ns) →
      holds sol ct = true
}.

Lemma solve_core_solution H input_data ns st sol :
  solver_sound H → fragments_only_extend H →
  build_model H input_data = inr ns →
  Solve H (ns_model ns) = (st, sol) →
  is_success st = true →
  core_solution H input_data ns sol.
Proof.
  intros Hsound Hfrag Hb Hsolve Hst.
  destruct (build_model_inv _ _ _ Hfrag Hb) as (start & end_ & Hs & He & Hext).
  destruct (Hsound _ _ _ Hsolve Hst) as [Hdom Hsat].
  destruct Hext as [Hw Hn Hsen Hd Hsn Hv Hc].
  pose proof (core_namespace_work_defined H input_data start end_) as Hdef.
  simpl in *.
  constructor.
  - by rewrite Hn.
  - by rewrite Hsen.
  - by rewrite Hsn.
  - exists start, end_. by rewrite Hd.
  - intros n d s Hin Hlt Hsh. rewrite Hn, Hd, Hw in *.
    destruct (Hdef n d s Hin Hlt Hsh) as (v & Hlook & Hbound).
    exists v. split; [done|]. apply Hdom. simpl in Hbound. lia.
  - intros ct Hct. apply Hsat, Hc. by rewrite Hn, Hd, Hw in Hct.
Qed.

(** ** Reading a solution *)

(** [solver.Value(work[n, d, s])] *)
Definition value (sol : assignment) (work : work_map)
    (n : string) (d : nat) (s : string) : Z :=
  sol (wv work (n, d, s)).

(** The test of the projection: [if solver.Value(work[n, d, s])]. *)
Definition assigned (sol : assignment) (work : work_map)
    (n : string) (d : nat) (s : string) : bool :=
  negb (value sol work n d s =? 0)%Z.




(** The shift that the projection reports for a nurse and a day. *)
Definition projected_shift (sol : assignment) (work : work_map)
    (n : string) (d : nat) : string :=
  default "" (head (filter (λ s, assigned sol work n d s) shift_names)).

Lemma holds_eq sol a b :
  holds sol (Linear a OpEq b) = true → eval sol a = eval sol b.
Proof. simpl. apply Z.eqb_eq. Qed.








Section core_solution_facts.
Context {H : Host} {input_data : InputData} {ns : Namespace} {sol : assignment}.
Hypothesis Hcs : core_solution H input_data ns sol.

Let work := ns_work ns.
Let nurses := ns_nurses ns.
Let D := length (ns_days ns).

Lemma cs_value_bool n d s :
  n ∈ nurses → d < D → s ∈ shift_names →
  value sol work n d s = 0%Z ∨ value sol work n d s = 1%Z.
Proof.
  intros Hn Hd Hs.
  destruct (cs_defined _ _ _ _ Hcs n d s Hn Hd Hs) as (v & Hv & Hb).
  unfold value, wv, work. by rewrite Hv.
Qed.


Lemma cs_single n d :
  n ∈ nurses → d < D →
  (value sol work n d "AM" + value sol work n d "PM" + value sol work n d "Night"
   + value sol work n d "REST" + value sol work n d "MC" = 1)%Z.
Proof.
  intros Hn Hd.
  assert (Linear (py_sum (LVar <$> ((λ s, wv work (n, d, s)) <$> shift_names)))
                 OpEq (LConst 1)
          ∈ core_constraints input_data work nurses (ns_days ns)) as Hin.
  { unfold core_constraints. rewrite !elem_of_app. right. left.
    unfold single_assignment_constraints.
    apply list_elem_of_bind. exists n. split; [|done].
    apply list_elem_of_bind. exists d. split; [|apply elem_of_seq; lia].
    by apply list_elem_of_singleton. }
  apply (cs_holds _ _ _ _ Hcs), holds_eq in Hin.
  rewrite eval_py_sum_vars in Hin. cbn in Hin. unfold value. lia.
Qed.

(** Of the five variables of a nurse and a day, one is 1 and four are 0. *)
Lemma cs_one_hot n d :
  n ∈ nurses → d < D →
  ∃ a p g r c : bool,
    value sol work n d "AM" = Z.b2z a ∧ value sol work n d "PM" = Z.b2z p
    ∧ value sol work n d "Night" = Z.b2z g ∧ value sol work n d "REST" = Z.b2z r
    ∧ value sol work n d "MC" = Z.b2z c
    ∧ (Z.b2z a + Z.b2z p + Z.b2z g + Z.b2z r + Z.b2z c = 1)%Z.
Proof.
  intros Hn Hd. pose proof (cs_single n d Hn Hd) as Hsum.
  assert (∀ s, s ∈ shift_names → ∃ b : bool, value sol work n d s = Z.b2z b) as Hb.
  { intros s Hs. destruct (cs_value_bool n d s Hn Hd Hs) as [Hv|Hv].
    - by exists false. - by exists true. }
  destruct (Hb "AM") as [a Ha]; [unfold shift_names; rewrite !elem_of_cons; tauto|].
  destruct (Hb "PM") as [p Hp]; [unfold shift_names; rewrite !elem_of_cons; tauto|].
  destruct (Hb "Night") as [g Hg]; [unfold shift_names; rewrite !elem_of_cons; tauto|].
  destruct (Hb "REST") as [r Hr]; [unfold shift_names; rewrite !elem_of_cons; tauto|].
  destruct (Hb "MC") as [c Hc]; [unfold shift_names; rewrite !elem_of_cons; tauto|].
  exists a, p, g, r, c. rewrite Ha, Hp, Hg, Hr, Hc in Hsum. done.
Qed.






End core_solution_facts.

(** ** The reference host meets what the core relies on *)

Lemma first_solution_sound candidates m st sol :
  first_solution candidates m = (st, sol) → is_success st = true → satisfies sol m.
Proof.
  unfold first_solution.
  destruct (find (λ sol, satisfiesb sol m) candidates) as [sol'|] eqn:Hfind.
  - intros [= <- <-] _. apply find_some in Hfind as [_ Hsat].
    unfold satisfiesb in Hsat. apply andb_prop in Hsat as [Hdom Hcts].
    split.
    + intros v Hv. rewrite forallb_forall in Hdom.
      specialize (Hdom v). rewrite in_seq in Hdom.
      apply orb_prop in Hdom as [Hz|Hz]; [| |lia]; apply Z.eqb_eq in Hz; auto.
    + intros ct Hct. rewrite forallb_forall in Hcts.
      apply Hcts. by apply list_elem_of_In.
  - intros [= <- <-]. discriminate.
Qed.



(** * The claims *)




Definition roster_one_day : assignment := ones [0; 6; 12; 19].

(** A request of one full week and one more day with a single nurse. *)
Definition request_week : InputData :=
  mkInput ["S1"] [] "2025-01-06" "2025-01-13"
          None 0 0 None None 56 49 None None.










(** ** The projection *)

(** The entries that step 6 writes: for each nurse and each day, in the
    order of the loops, the date of the day and the projected shift. *)
Definition roster_entries (sol : assignment) (work : work_map)
    (nurses days : list string) : list (string * string * string) :=
  n ← nurses; d ← seq 0 (length days);
  [(n, default "" (days !! d), projected_shift sol work n d)].

Lemma project_closed sol ns :
  work_present (ns_work ns) (ns_nurses ns) (length (ns_days ns)) →
  ns_shift_names ns = shift_names →
  project sol ns
  = inr (n ← ns_nurses ns; d ← seq 0 (length (ns_days ns)); s ← shift_names;
         if assigned sol (ns_work ns) n d s
         then [(n, default "" (ns_days ns !! d), s)] else []).
Proof.
  intros Hpres Hsn. unfold project. rewrite Hsn.
  rewrite <- (app_nil_l (_ ≫= _)).
  apply foldM_append. intros n out1 Hn.
  apply foldM_append. intros d out2 Hd. apply elem_of_seq in Hd.
  apply foldM_append. intros s out3 Hs.
  erewrite work_get_defined by (eauto; lia). simpl.
  unfold assigned, value.
  destruct (negb (sol (wv (ns_work ns) (n, d, s)) =? 0)%Z).
  - destruct (lookup_lt_is_Some_2 (ns_days ns) d) as [day Hday]; [lia|].
    by rewrite Hday.
  - by rewrite app_nil_r.
Qed.



Section projection_facts.
Context {H : Host} {input_data : InputData} {ns : Namespace} {sol : assignment}.
Hypothesis Hcs : core_solution H input_data ns sol.

Lemma cs_assigned_values n d :
  n ∈ ns_nurses ns → d < length (ns_days ns) →
  ∃ a p g r c : bool,
    assigned sol (ns_work ns) n d "AM" = a
    ∧ assigned sol (ns_work ns) n d "PM" = p
    ∧ assigned sol (ns_work ns) n d "Night" = g
    ∧ assigned sol (ns_work ns) n d "REST" = r
    ∧ assigned sol (ns_work ns) n d "MC" = c
    ∧ (Z.b2z a + Z.b2z p + Z.b2z g + Z.b2z r + Z.b2z c = 1)%Z.
Proof.
  intros Hn Hd.
  destruct (cs_one_hot Hcs n d Hn Hd)
    as (a & p & g & r & c & Ha & Hp & Hg & Hr & Hc & Hsum).
  exists a, p, g, r, c. unfold assigned. rewrite Ha, Hp, Hg, Hr, Hc.
  repeat split; try done; by match goal with |- negb (Z.b2z ?b =? 0)%Z = _ => destruct b end.
Qed.

(** The five tests of the projection for a nurse and a day succeed once. *)
Lemma cs_shift_row n d (day : string) :
  n ∈ ns_nurses ns → d < length (ns_days ns) →
  (s ← shift_names;
   if assigned sol (ns_work ns) n d s then [(n, day, s)] else [])
  = [(n, day, projected_shift sol (ns_work ns) n d)].
Proof.
  intros Hn Hd.
  destruct (cs_assigned_values n d Hn Hd)
    as (a & p & g & r & c & Ha & Hp & Hg & Hr & Hc & Hsum).
  unfold projected_shift, shift_names.
  rewrite !filter_cons, filter_nil. cbn [mbind list_bind app].
  rewrite Ha, Hp, Hg, Hr, Hc.
  destruct a, p, g, r, c; simpl in Hsum; try lia; reflexivity.
Qed.

Lemma cs_projected_unique n d s :
  n ∈ ns_nurses ns → d < length (ns_days ns) → s ∈ shift_names →
  assigned sol (ns_work ns) n d s = true
  ↔ s = projected_shift sol (ns_work ns) n d.
Proof.
  intros Hn Hd Hs.
  destruct (cs_assigned_values n d Hn Hd)
    as (a & p & g & r & c & Ha & Hp & Hg & Hr & Hc & Hsum).
  unfold projected_shift, shift_names in *.
  rewrite !filter_cons, filter_nil. rewrite Ha, Hp, Hg, Hr, Hc.
  rewrite !elem_of_cons, elem_of_nil in Hs.
  destruct Hs as [->|[->|[->|[->|[->|[]]]]]];
    rewrite ?Ha, ?Hp, ?Hg, ?Hr, ?Hc;
    destruct a, p, g, r, c; simpl in Hsum; try lia; simpl; split; congruence.
Qed.


Lemma cs_project :
  project sol ns
  = inr (roster_entries sol (ns_work ns) (ns_nurses ns) (ns_days ns)).
Proof.
  rewrite project_closed.
  - f_equal. unfold roster_entries.
    apply Forall_bind_ext, Forall_forall. intros n Hn.
    apply Forall_bind_ext, Forall_forall. intros d Hd.
    apply elem_of_seq in Hd. apply cs_shift_row; [done | lia].
  - intros n d s Hn Hd Hs.
    destruct (cs_defined _ _ _ _ Hcs n d s Hn Hd Hs) as (v & Hv & _). eauto.
  - apply (cs_shift_names _ _ _ _ Hcs).
Qed.
End projection_facts.




Section leave_facts.
Context {H : Host} {input_data : InputData} {ns : Namespace} {sol : assignment}.
Hypothesis Hcs : core_solution H input_data ns sol.

Lemma cs_mc_value n d date :
  n ∈ ns_nurses ns → ns_days ns !! d = Some date →
  value sol (ns_work ns) n d "MC"
  = if bool_decide (date ∈ declared (default ∅ (mc_preferences input_data)) n)
    then 1%Z else 0%Z.
Proof.
  intros Hn Hd.
  assert (Linear (LVar (wv (ns_work ns) (n, d, "MC"))) OpEq
            (LConst (if bool_decide
                          (date ∈@{gset string}
                             list_to_set (declared (default ∅ (mc_preferences input_data)) n))
                     then 1 else 0))
          ∈ core_constraints input_data (ns_work ns) (ns_nurses ns) (ns_days ns)) as Hin.
  { unfold core_constraints. rewrite !elem_of_app. left.
    unfold mc_constraints.
    apply list_elem_of_bind. exists n. split; [|done].
    apply list_elem_of_bind. exists (d, date). split; [|by apply elem_of_enumerate].
    by apply list_elem_of_singleton. }
  apply (cs_holds _ _ _ _ Hcs), holds_eq in Hin. cbn [eval] in Hin.
  unfold value. rewrite Hin.
  do 2 case_bool_decide; try done; exfalso;
    match goal with
    | Hs : _ ∈ list_to_set _, Hl : ¬ _ |- _ => apply Hl; by apply elem_of_list_to_set in Hs
    | Hs : ¬ _ ∈ list_to_set _, Hl : _ ∈ _ |- _ => apply Hs; by apply elem_of_list_to_set
    end.
Qed.

Lemma cs_leave n d date :
  n ∈ ns_nurses ns → ns_days ns !! d = Some date →
  let mc := default ∅ (mc_preferences input_data) in
  (date ∈ declared mc n →
     projected_shift sol (ns_work ns) n d = "MC"
     ∧ value sol (ns_work ns) n d "MC" = 1%Z
     ∧ ∀ s, s ∈ shift_names → s ≠ "MC" → value sol (ns_work ns) n d s = 0%Z)
  ∧ (date ∉ declared mc n →
     projected_shift sol (ns_work ns) n d ≠ "MC"
     ∧ value sol (ns_work ns) n d "MC" = 0%Z).
Proof.
  intros Hn Hday mc.
  pose proof (lookup_lt_Some _ _ _ Hday) as Hd.
  pose proof (cs_mc_value n d date Hn Hday) as Hmc. fold mc in Hmc.
  assert ("MC" ∈ shift_names) as HMC
    by (unfold shift_names; rewrite !elem_of_cons; tauto).
  pose proof (cs_projected_unique Hcs n d "MC" Hn Hd HMC) as Huniq.
  unfold assigned in Huniq.
  destruct (cs_one_hot Hcs n d Hn Hd)
    as (a & p & g & r & c & Ha & Hp & Hg & Hr & Hc & Hsum).
  split; intros Hdecl.
  - rewrite bool_decide_eq_true_2 in Hmc by done.
    rewrite Hmc in Huniq. split; [symmetry; by apply Huniq|]. split; [done|].
    intros s Hs Hne. unfold shift_names in Hs.
    rewrite !elem_of_cons, elem_of_nil in Hs. rewrite Hmc in Hc.
    destruct Hs as [->|[->|[->|[->|[->|[]]]]]]; try done;
      rewrite ?Ha, ?Hp, ?Hg, ?Hr;
      destruct a, p, g, r, c; simpl in *; try lia; done.
  - rewrite bool_decide_eq_false_2 in Hmc by done.
    rewrite Hmc in Huniq. split; [|done].
    intros Heq. symmetry in Heq. apply Huniq in Heq. discriminate.
Qed.
End leave_facts.

Lemma elem_of_roster_entries sol work (nurses days : list string) n date s :
  (n, date, s) ∈ roster_entries sol work nurses days →
  ∃ d, n ∈ nurses ∧ days !! d = Some date ∧ s = projected_shift sol work n d.
Proof.
  unfold roster_entries. intros Hin.
  apply list_elem_of_bind in Hin as (n' & Hin & Hn).
  apply list_elem_of_bind in Hin as (d & Hin & Hd).
  apply list_elem_of_singleton in Hin as [= -> -> ->].
  apply elem_of_seq in Hd.
  destruct (lookup_lt_is_Some_2 days d) as [day Hday]; [lia|].
  exists d. rewrite Hday. done.
Qed.



(** C9: the [constraints] argument is never read: the result is the same
    for any two values of it. *)
Theorem constraints_parameter_unused H input_data (c1 c2 : Json) :
  build_and_solve H input_data c1 = build_and_solve H input_data c2.
Proof. reflexivity. Qed.

(** The request with another [mc_preferences]. *)
Definition with_mc_preferences (input_data : InputData)
    (mc : option (gmap string (list string))) : InputData :=
  mkInput (seniors input_data) (juniors input_data)
          (start_date input_data) (end_date input_data) mc
          (min_nurses_per_shift input_data) (min_seniors_per_shift input_data)
          (min_am_coverage input_data) (min_senior_am_coverage input_data)
          (max_hours_per_week input_data) (min_hours_per_week input_data)
          (rules_text input_data) (day_of_week input_data).

Lemma add_mc_agree (mc mc' : gmap string (list string)) work (nurses days : list string) m :
  (∀ n, n ∈ nurses → mc' !! n = mc !! n) →
  add_mc mc' work nurses days m = add_mc mc work nurses days m.
Proof.
  intros Hagree. unfold add_mc. apply foldM_ext_in.
  intros n m1 Hn. by rewrite (Hagree n Hn).
Qed.

Lemma core_model_mc_agree H input_data (mc' : gmap string (list string)) :
  (∀ n, n ∈ seniors input_data ++ juniors input_data →
        mc' !! n = default ∅ (mc_preferences input_data) !! n) →
  core_model H (with_mc_preferences input_data (Some mc')) = core_model H input_data.
Proof.
  intros Hagree. unfold core_model. simpl.
  destruct (strptime H (start_date input_data)) as [e|start]; [done|]. simpl.
  destruct (strptime H (end_date input_data)) as [e|end_]; [done|]. simpl.
  destruct (create_variables _ _ _) as [m work].
  by rewrite (add_mc_agree _ _ _ _ _ _ Hagree).
Qed.

(** C10: the entries of [mc_preferences] for identifiers that are neither
    seniors nor juniors change nothing: with those entries removed, steps 1
    to 3 build the same variables and constraints, and [build_and_solve]
    returns the same result. *)
Theorem unknown_nurse_leave_ignored H input_data constraints :
  let nurses := seniors input_data ++ juniors input_data in
  let mc := default ∅ (mc_preferences input_data) in
  let kept : gmap string (list string) := filter (λ kv, kv.1 ∈ nurses) mc in
  core_model H (with_mc_preferences input_data (Some kept)) = core_model H input_data
  ∧ build_and_solve H (with_mc_preferences input_data (Some kept)) constraints
    = build_and_solve H input_data constraints.
Proof.
  intros nurses mc kept.
  assert (core_model H (with_mc_preferences input_data (Some kept))
          = core_model H input_data) as Hcore.
  { apply core_model_mc_agree. intros n Hn. unfold kept.
    apply option_eq. intros dates. rewrite map_lookup_filter_Some. simpl.
    fold nurses in Hn. fold mc. tauto. }
  split; [exact Hcore|].
  unfold build_and_solve, build_model. rewrite Hcore. done.
Qed.

(** The one-day request with more nurses asked per shift than there are. *)
Definition request_understaffed : InputData :=
  mkInput ["S1"; "S2"] ["J1"; "J2"] "2025-01-10" "2025-01-10"
          None 5 0 None None 168 0 None None.

(** C2, as stated, fails: when the solve is not successful the returned
    object has the key "error" and the key "s" together. *)
Lemma failure_result_has_both_keys :
  ∃ out, build_and_solve (reference_host [roster_one_day]) request_understaffed JNull
         = inr out
         ∧ out !! "s" = Some (Entries [])
         ∧ out !! "error" = Some (Message "No feasible solution found.").
Proof. eexists. split; [vm_compute; reflexivity|]. split; vm_compute; reflexivity. Qed.

(** C2, amended: a returned result has one of two shapes. After a
    successful solve its only key is "s"; after an unsuccessful solve it
    has the two keys "s", bound to the empty list, and "error", bound to
    the message. *)
Theorem result_shapes H input_data constraints ns st sol out :
  build_model H input_data = inr ns →
  Solve H (ns_model ns) = (st, sol) →
  build_and_solve H input_data constraints = inr out →
  if is_success st
  then ∃ entries, out = {[ "s" := Entries entries ]}
  else out = <["error" := Message "No feasible solution found."]>
               {[ "s" := Entries [] ]}
       ∧ dom out = {[ "s"; "error" ]}.
Proof.
  intros Hb Hsolve. unfold build_and_solve. rewrite Hb. simpl. rewrite Hsolve.
  unfold format_output. destruct (is_success st).
  - intros Hout. apply bind_inr in Hout as (entries & _ & [= <-]).
    exists entries. by rewrite insert_singleton_eq.
  - intros [= <-]. split; [done|].
    rewrite dom_insert_L, dom_singleton_L. set_solver.
Qed.

Lemma result_shapes_witness :
  let H := reference_host [roster_one_day] in
  let ns := core_namespace H request_understaffed 739261 739261 in
  <["error" := Message "No feasible solution found."]> {[ "s" := Entries [] ]}
  = <["error" := Message "No feasible solution found."]>
      ({[ "s" := Entries [] ]} : Output)
  ∧ dom (<["error" := Message "No feasible solution found."]>
           ({[ "s" := Entries [] ]} : Output)) = {[ "s"; "error" ]}.
Proof.
  intros H ns.
  apply (result_shapes H request_understaffed JNull ns UNKNOWN (λ _, 0%Z)).
  - vm_compute. reflexivity.
  - vm_compute. reflexivity.
  - vm_compute. reflexivity.
Defined.

(** ** A reversed date range *)

Definition request_reversed : InputData :=
  mkInput ["S1"; "S2"] ["J1"; "J2"] "2025-01-10" "2025-01-05"
          None 1 0 None None 168 0 None None.

(** C3, as stated, fails: with the end date before the start date nothing
    is raised; the request is solved over no days and returns an empty
    roster. *)
Lemma reversed_range_is_not_an_error :
  strptime (reference_host [ones []]) (start_date request_reversed) = inr 739261%Z
  ∧ strptime (reference_host [ones []]) (end_date request_reversed) = inr 739256%Z
  ∧ build_and_solve (reference_host [ones []]) request_reversed JNull
    = inr {[ "s" := Entries [] ]}.
Proof. repeat split; vm_compute; reflexivity. Qed.

Lemma bind_all_nil {A B} (f : A → list B) (l : list A) :
  (∀ x, f x = []) → l ≫= f = [].
Proof.
  intros Hf. induction l as [|x l IH]; [done|]. by rewrite bind_cons, Hf, IH.
Qed.

Lemma expand_days_reversed H (start end_ : Z) :
  (end_ < start)%Z → expand_days H start end_ = [].
Proof.
  intros Hlt. unfold expand_days.
  replace (Z.to_nat (end_ - start + 1)) with 0 by lia. done.
Qed.

Lemma core_constraints_no_days input_data work (nurses : list string) :
  core_constraints input_data work nurses [] = [].
Proof.
  unfold core_constraints, mc_constraints, single_assignment_constraints,
    shift_coverage_constraints, am_percentage_constraints,
    weekly_hours_constraints.
  simpl. rewrite !bind_all_nil; done.
Qed.

(** C3, amended: when both dates parse and the end date is before the
    start date, steps 1 to 3 raise nothing: the sequence of days is empty,
    no variable is allocated and no constraint is added, and
    [build_and_solve] goes on to the custom rules and the solver with that
    empty model. *)
Theorem reversed_range_builds_empty_model H input_data constraints start end_ :
  strptime H (start_date input_data) = inr start →
  strptime H (end_date input_data) = inr end_ →
  (end_ < start)%Z →
  let ns0 := mkNs empty_model ∅ (seniors input_data ++ juniors input_data)
                  (seniors input_data) (juniors input_data) [] shift_names
                  (default [] (day_of_week input_data)) in
  core_model H input_data = inr ns0
  ∧ build_and_solve H input_data constraints
    = (let* ns := custom_rules H input_data ns0 in
       let '(status, sol) := Solve H (ns_model ns) in
       format_output status sol ns).
Proof.
  intros Hs He Hlt ns0.
  assert (core_model H input_data = inr ns0) as Hcore.
  { rewrite (core_model_closed _ _ _ _ Hs He). unfold core_namespace.
    rewrite (expand_days_reversed _ _ _ Hlt). simpl length.
    rewrite create_variables_flat, all_keys_no_days. simpl.
    by rewrite core_constraints_no_days. }
  split; [exact Hcore|].
  unfold build_and_solve, build_model. by rewrite Hcore.
Qed.

Lemma reversed_range_builds_empty_model_witness :
  core_model (reference_host [ones []]) request_reversed
  = inr (mkNs empty_model ∅ (seniors request_reversed ++ juniors request_reversed)
              (seniors request_reversed) (juniors request_reversed) [] shift_names
              (default [] (day_of_week request_reversed))).
Proof.
  refine (proj1 (reversed_range_builds_empty_model (reference_host [ones []])
                   request_reversed JNull 739261 739256 _ _ _)).
  - vm_compute. reflexivity.
  - vm_compute. reflexivity.
  - lia.
Defined.

(** ** Custom fragments *)












(** * Further properties of the code *)

(** ** Steps 1 to 3 *)


(** The days of the horizon: one per day from the start date to the end
    date, both included, in order. *)
Theorem days_of_the_horizon H input_data ns start end_ :
  core_model H input_data = inr ns →
  strptime H (start_date input_data) = inr start →
  strptime H (end_date input_data) = inr end_ →
  (start <= end_)%Z →
  length (ns_days ns) = Z.to_nat (end_ - start + 1)
  ∧ ∀ i, i < length (ns_days ns) →
         ns_days ns !! i = Some (strftime H (start + Z.of_nat i)%Z).
Proof.
  intros Hcore Hs He Hle.
  rewrite (core_model_closed _ _ _ _ Hs He) in Hcore. injection Hcore as <-.
  simpl. unfold expand_days. rewrite length_fmap, length_seq. split; [done|].
  intros i Hi. rewrite list_lookup_fmap, lookup_seq_lt by done. done.
Qed.

Lemma days_of_the_horizon_witness :
  length (ns_days (core_namespace (reference_host []) request_week 739257 739264))
  = Z.to_nat (739264 - 739257 + 1).
Proof.
  refine (proj1 (days_of_the_horizon (reference_host []) request_week _ 739257 739264
                   _ _ _ _)).
  - vm_compute. reflexivity.
  - vm_compute. reflexivity.
  - vm_compute. reflexivity.
  - lia.
Defined.

Lemma length_bind_const {A B} (f : A → list B) (l : list A) (c : nat) :
  (∀ x, x ∈ l → length (f x) = c) → length (l ≫= f) = length l * c.
Proof.
  induction l as [|x l IH]; intros Hf; [done|].
  rewrite bind_cons, length_app, Hf, IH by (try constructor; intros; apply Hf; by constructor).
  simpl. lia.
Qed.





(** The number of constraints that rules 2b and 3a to 3d add. *)
Definition pct_on (pct : option Z) : nat :=
  if (0 <? default 0%Z pct)%Z then 1 else 0.

Lemma length_core_constraints input_data work (nurses days : list string) :
  length (core_constraints input_data work nurses days)
  = 2 * (length nurses * length days) + 6 * length days
    + length days * (pct_on (min_am_coverage input_data)
                     + pct_on (min_senior_am_coverage input_data))
    + 2 * (length nurses * (length days / 7)).
Proof.
  unfold core_constraints. rewrite !length_app.
  assert (length (mc_constraints (default ∅ (mc_preferences input_data)) work nurses days)
          = length nurses * length days) as ->.
  { unfold mc_constraints. apply length_bind_const. intros n _.
    rewrite (length_bind_const _ _ 1); [|done].
    unfold enumerate. rewrite length_imap. lia. }
  assert (length (single_assignment_constraints work nurses (length days))
          = length nurses * length days) as ->.
  { unfold single_assignment_constraints. apply length_bind_const. intros n _.
    rewrite (length_bind_const _ _ 1); [|done]. rewrite length_seq. lia. }
  assert (length (shift_coverage_constraints work nurses (seniors input_data)
                    (length days) (min_nurses_per_shift input_data)
                    (min_seniors_per_shift input_data))
          = 6 * length days) as ->.
  { unfold shift_coverage_constraints.
    rewrite (length_bind_const _ _ 6); [rewrite length_seq; lia|]. intros d _. done. }
  assert (length (am_percentage_constraints work nurses (seniors input_data)
                    (length days) (min_am_coverage input_data)
                    (min_senior_am_coverage input_data))
          = length days * (pct_on (min_am_coverage input_data)
                           + pct_on (min_senior_am_coverage input_data))) as ->.
  { unfold am_percentage_constraints.
    rewrite (length_bind_const _ _ (pct_on (min_am_coverage input_data)
                                    + pct_on (min_senior_am_coverage input_data)));
      [by rewrite length_seq|].
    intros d _. rewrite length_app. unfold am_percentage_constraint, pct_on.
    destruct (0 <? default 0 (min_am_coverage input_data))%Z;
      destruct (0 <? default 0 (min_senior_am_coverage input_data))%Z; done. }
  assert (length (weekly_hours_constraints work nurses (length days)
                    (max_hours_per_week input_data) (min_hours_per_week input_data))
          = 2 * (length nurses * (length days / 7))) as ->.
  { unfold weekly_hours_constraints.
    rewrite (length_bind_const _ _ (length days / 7 * 2)); [lia|]. intros n _.
    rewrite (length_bind_const _ _ 2); [by rewrite length_seq|]. done. }
  lia.
Qed.

(** The model of the core rules has, for N nurses and D days, N × D leave
    constraints, N × D single-assignment constraints, 6 × D coverage
    constraints, one percentage constraint per day for each percentage that
    is positive, and two hour constraints per nurse and full week. *)
Theorem constraints_of_the_model H input_data ns :
  core_model H input_data = inr ns →
  let N := length (seniors input_data ++ juniors input_data) in
  let D := length (ns_days ns) in
  length (constraints (ns_model ns))
  = 2 * (N * D) + 6 * D
    + D * (pct_on (min_am_coverage input_data)
           + pct_on (min_senior_am_coverage input_data))
    + 2 * (N * (D / 7)).
Proof.
  intros Hcore.
  apply core_model_inv in Hcore as (start & end_ & _ & _ & ->).
  unfold core_namespace. simpl. apply length_core_constraints.
Qed.

Lemma constraints_of_the_model_witness :
  length (constraints (ns_model (core_namespace (reference_host []) request_week
                                   739257 739264)))
  = 2 * (1 * 8) + 6 * 8 + 8 * (0 + 0) + 2 * (1 * (8 / 7)).
Proof.
  apply (constraints_of_the_model (reference_host []) request_week).
  vm_compute. reflexivity.
Defined.

(** ** Requests that no roster can satisfy *)

(** The object returned when the solve is not successful. *)
Definition failure_output : Output :=
  <["error" := Message "No feasible solution found."]> {[ "s" := Entries [] ]}.
















(** ** Text *)

Lemma append_cons (a : ascii) (s t : string) :
  String a s +:+ t = String a (s +:+ t).
Proof. reflexivity. Qed.

Lemma append_nil_l (t : string) : "" +:+ t = t.
Proof. reflexivity. Qed.

Lemma append_nil_r (s : string) : s +:+ "" = s.
Proof. induction s as [|a s IH]; [done|]. by rewrite append_cons, IH. Qed.

Lemma append_assoc (a b c : string) : (a +:+ b) +:+ c = a +:+ (b +:+ c).
Proof. induction a as [|x a IH]; [done|]. by rewrite !append_cons, IH. Qed.

Lemma rev_app_spec (s acc : string) : String.rev_app s acc = String.rev s +:+ acc.
Proof.
  unfold String.rev. revert acc. induction s as [|a s IH]; intros acc; [done|].
  simpl. rewrite IH, (IH (String a "")), append_assoc. done.
Qed.

Lemma rev_cons (a : ascii) (s : string) :
  String.rev (String a s) = String.rev s +:+ String a "".
Proof. unfold String.rev at 1. simpl. apply rev_app_spec. Qed.

Lemma rev_append (a b : string) :
  String.rev (a +:+ b) = String.rev b +:+ String.rev a.
Proof.
  induction a as [|x a IH].
  - by rewrite append_nil_l, append_nil_r.
  - by rewrite append_cons, !rev_cons, IH, append_assoc.
Qed.

Lemma rev_involutive (s : string) : String.rev (String.rev s) = s.
Proof.
  induction s as [|a s IH]; [done|].
  by rewrite rev_cons, rev_append, IH.
Qed.








Lemma prefix_append (p q s : string) :
  String.prefix (p +:+ q) s = true → String.prefix p s = true.
Proof.
  revert s. induction p as [|a p IH]; intros s; [by destruct s|].
  destruct s as [|b s]; simpl; [done|].
  destruct (ascii_dec a b); [apply IH|done].
Qed.

Lemma contains_append (p q s : string) :
  contains (p +:+ q) s = true → contains p s = true.
Proof.
  induction s as [|b s IH]; cbn [contains]; intros Hc.
  - destruct (String.prefix (p +:+ q) "") eqn:Hp; [|discriminate Hc].
    by rewrite (prefix_append _ _ _ Hp).
  - destruct (String.prefix (p +:+ q) (String b s)) eqn:Hp.
    + by rewrite (prefix_append _ _ _ Hp).
    + rewrite (IH Hc). by destruct (String.prefix p (String b s)).
Qed.

(** ** The custom-rule step *)

(** The static check lets a fragment through exactly when it contains
    neither [shift_names.index] nor [for d in days]; the two slice patterns
    of the list contain the second one, so a rejection always names one of
    the first two. *)
Theorem forbidden_check_decided_by_two_patterns (snippet : string) :
  (check_forbidden snippet = inr tt
   ↔ contains "shift_names.index" snippet = false
     ∧ contains "for d in days" snippet = false)
  ∧ (∀ e, check_forbidden snippet = inl e →
       e = RuntimeError ("LLM code contains forbidden pattern: "
                         +:+ "shift_names.index" +:+ nl +:+ snippet)
       ∨ e = RuntimeError ("LLM code contains forbidden pattern: "
                           +:+ "for d in days" +:+ nl +:+ snippet)).
Proof.
  pose proof (contains_append "for d in days" "[:-1]" snippet) as H3.
  pose proof (contains_append "for d in days" "[1:]" snippet) as H4.
  change ("for d in days" +:+ "[:-1]") with "for d in days[:-1]" in H3.
  change ("for d in days" +:+ "[1:]") with "for d in days[1:]" in H4.
  unfold check_forbidden, forbidden. simpl.
  destruct (contains "shift_names.index" snippet); simpl.
  { split; [split; [discriminate|intros [[=] _]]|]. intros e [= <-]. by left. }
  destruct (contains "for d in days" snippet); simpl.
  { split; [split; [discriminate|intros [_ [=]]]|]. intros e [= <-]. by right. }
  destruct (contains "for d in days[:-1]" snippet); [by specialize (H3 eq_refl)|].
  destruct (contains "for d in days[1:]" snippet); [by specialize (H4 eq_refl)|].
  simpl. split; [done|]. intros e [=].
Qed.















(** * The translator client ([llm_client.py]) *)

Module llm_client.

(** What the module reads from its environment and the remote calls it
    makes. A remote call gives the text of the reply or raises. *)
Record LlmEnv : Type := mkLlmEnv {
  PROVIDER : string;                       (* os.getenv("PROVIDER", "openai").lower() *)
  openai_installed : bool;                 (* openai is not None *)
  anthropic_installed : bool;              (* anthropic is not None *)
  (* client.chat.completions.create(model=OPENAI_MODEL, ...) *)
  openai_chat_completion : string → result string;
  (* client.messages.create(...).content[0].text *)
  anthropic_message_text : string → result string;
  (* requests.post(...).json()["choices"][0]["message"]["content"] *)
  openrouter_message_content : string → result string;
  (* the DeepSeek client's ...choices[0].message.content *)
  deepseek_message_content : string → result string;
  (* json.loads on a text; [None] stands for json.JSONDecodeError *)
  json_loads : string → option Json
}.

(** The call is made and its token usage logged; the function has no
    [return] statement. *)
Definition _call_openai (E : LlmEnv) (prompt : string) : result (option string) :=
  let* response := openai_chat_completion E prompt in
  ret None.

Definition _call_anthropic (E : LlmEnv) (prompt : string) : result (option string) :=
  let* text := anthropic_message_text E prompt in
  ret (Some text).

Definition _call_openrouter (E : LlmEnv) (prompt : string) : result (option string) :=
  let* content := openrouter_message_content E prompt in
  ret (Some content).

Definition _call_deepseek (E : LlmEnv) (prompt : string) : result (option string) :=
  let* content := deepseek_message_content E prompt in
  ret (Some content).

Definition call_llm (E : LlmEnv) (prompt : string) : result (option string) :=
  if bool_decide (PROVIDER E = "openai") then
    if negb (openai_installed E) then raise (RuntimeError "OpenAI SDK not installed")
    else _call_openai E prompt
  else if bool_decide (PROVIDER E = "anthropic") then
    if negb (anthropic_installed E) then raise (RuntimeError "Anthropic SDK not installed")
    else _call_anthropic E prompt
  else if bool_decide (PROVIDER E = "openrouter") then _call_openrouter E prompt
  else if bool_decide (PROVIDER E = "deepseek") then _call_deepseek E prompt
  else raise (RuntimeError ("Unsupported PROVIDER: " +:+ PROVIDER E)).

(** The double quote. *)
Definition dq : string := String (ascii_of_nat 34) "".

(** The part of the two parsing prompts after the rules. *)
Definition prompt_tail : string :=
  nl +:+ nl +:+ "Return exactly:" +:+ nl +:+ "{" +:+ nl
  +:+ "  " +:+ dq +:+ "hard_constraints" +:+ dq +:+ ": [...]," +:+ nl
  +:+ "  " +:+ dq +:+ "soft_constraints" +:+ dq +:+ ": [...]," +:+ nl
  +:+ "  " +:+ dq +:+ "variables" +:+ dq +:+ ": [...]," +:+ nl
  +:+ "  " +:+ dq +:+ "objective" +:+ dq +:+ ": " +:+ dq +:+ "..." +:+ dq +:+ nl
  +:+ "}" +:+ nl +:+ "No explanations or markdown." +:+ nl.

Definition prompt_head : string :=
  nl +:+ "You are a constraint parser for OR‑Tools CP‑SAT. Read these rules and output JSON ONLY."
  +:+ nl.

(** [build_constraints_prompt] of [prompts.py] *)
Definition build_constraints_prompt (rules_text : string) : string :=
  strip (prompt_head +:+ nl +:+ "Rules:" +:+ nl +:+ rules_text +:+ prompt_tail).

(** [f"{i}: {d} ({dow})" for i, (d, dow) in enumerate(zip(days, day_of_week))] *)
Definition date_lines (days day_of_week : list string) : list string :=
  (λ x : nat * (string * string),
     pretty x.1 +:+ ": " +:+ x.2.1 +:+ " (" +:+ x.2.2 +:+ ")")
  <$> enumerate (zip days day_of_week).

(** A list argument that may be [None]; [if l:] holds for a list that is
    there and not empty. *)
Definition truthy {A} (l : option (list A)) : bool :=
  match l with
  | Some (_ :: _) => true
  | _ => false
  end.

Definition parse_prompt (rules_text : string)
    (days day_of_week : option (list string)) : string :=
  let date_info :=
    if truthy days && truthy day_of_week then
      nl +:+ "The schedule has these indexed days:" +:+ nl
      +:+ String.concat nl (date_lines (default [] days) (default [] day_of_week))
      +:+ nl
    else "" in
  strip (prompt_head +:+ date_info +:+ nl +:+ "Rules:" +:+ nl +:+ rules_text
         +:+ prompt_tail).

(** The suffix that starts at the first [c]. *)
Fixpoint from_first (c : ascii) (s : string) : option string :=
  match s with
  | EmptyString => None
  | String a s' => if bool_decide (a = c) then Some s else from_first c s'
  end.

(** The prefix that ends at the last [c]. *)
Definition upto_last (c : ascii) (s : string) : option string :=
  String.rev <$> from_first c (String.rev s).

(** [re.search(r"\{[\s\S]*\}", raw)]: from the first opening brace to the
    last closing brace after it. *)
Definition brace_span (raw : string) : option string :=
  match from_first "{" raw with
  | Some (String b rest) => String b <$> upto_last "}" rest
  | _ => None
  end.

Definition parse_failure (raw : string) : exn :=
  RuntimeError ("Failed to parse JSON from LLM response:" +:+ nl +:+ raw).

Definition parse_constraints (E : LlmEnv) (rules_text : string)
    (days day_of_week : option (list string)) : result Json :=
  let prompt := parse_prompt rules_text days day_of_week in
  let* raw := call_llm E prompt in
  match raw with
  | None =>
      raise (Exn "TypeError"
               "the JSON object must be str, bytes or bytearray, not NoneType")
  | Some raw =>
      match json_loads E raw with
      | Some j => ret j
      | None =>
          match brace_span raw with
          | Some group =>
              match json_loads E group with
              | Some j => ret j
              | None => raise (parse_failure raw)
              end
          | None => raise (parse_failure raw)
          end
      end
  end.

End llm_client.

(** * The HTTP endpoint ([app.py]) *)

(** The JSON object of a request, with the keys the endpoint reads and
    [mc_preferences], which [build_and_solve] knows and the endpoint does
    not read. A key that is absent is [None]. *)
Record Payload : Type := mkPayload {
  p_start_date : option string;
  p_end_date : option string;
  p_senior_ids : option (list string);
  p_junior_ids : option (list string);
  p_rules_text : option string;
  p_min_hours_per_week : option Z;
  p_max_hours_per_week : option Z;
  p_min_nurses_per_shift : option Z;
  p_min_seniors_per_shift : option Z;
  p_min_am_coverage : option Z;
  p_min_senior_am_coverage : option Z;
  p_mc_preferences : option (gmap string (list string))
}.

Inductive Response : Type :=
| Respond (status : Z) (body : Output)          (* return jsonify(...), status *)
| Abort (status : Z) (description : string)     (* abort(status, description=...) *)
| Unhandled (e : exn).                          (* an exception nobody catches *)

Record AppEnv : Type := mkAppEnv {
  app_strptime : string → result Z;
  app_strftime : Z → string;
  app_weekday : Z → string;                     (* strftime("%A") *)
  app_codegen_prompt : string → string;
  app_exec : string → Namespace → result Namespace;
  app_solve : CpModel → CpSolverStatus * assignment;
  app_llm : llm_client.LlmEnv
}.

(** The host that [build_and_solve] runs in when called by the endpoint. *)
Definition app_host (A : AppEnv) : Host :=
  mkHost (app_strptime A) (app_strftime A) (app_codegen_prompt A)
         (llm_client.call_llm (app_llm A)) (app_exec A) (app_solve A).

Definition required_fields : list string :=
  ["start_date"; "end_date"; "senior_ids"; "junior_ids"; "rules_text"].

(** [f in data] for a required field. *)
Definition has_field (data : Payload) (f : string) : bool :=
  if bool_decide (f = "start_date") then bool_decide (is_Some (p_start_date data))
  else if bool_decide (f = "end_date") then bool_decide (is_Some (p_end_date data))
  else if bool_decide (f = "senior_ids") then bool_decide (is_Some (p_senior_ids data))
  else if bool_decide (f = "junior_ids") then bool_decide (is_Some (p_junior_ids data))
  else if bool_decide (f = "rules_text") then bool_decide (is_Some (p_rules_text data))
  else false.

Definition missing_fields (data : Payload) : list string :=
  List.filter (λ f, negb (has_field data f)) required_fields.

Definition schedule (A : AppEnv) (body : option Payload) : Response :=
  match body with
  | None => Abort 400 "Invalid JSON payload"
  | Some data =>
      match missing_fields data with
      | _ :: _ =>
          Abort 400 ("Missing required fields: "
                     +:+ String.concat ", " (missing_fields data))
      | [] =>
          match p_start_date data, p_end_date data, p_senior_ids data,
                p_junior_ids data, p_rules_text data with
          | Some start_s, Some end_s, Some senior_ids, Some junior_ids, Some rules =>
              match app_strptime A start_s with
              | inl e => Unhandled e
              | inr start =>
                  match app_strptime A end_s with
                  | inl e => Unhandled e
                  | inr end_ =>
                      let num_days := Z.to_nat (end_ - start + 1) in
                      let days := (λ i : nat, app_strftime A (start + Z.of_nat i)%Z)
                                  <$> seq 0 num_days in
                      let day_of_week := (λ i : nat, app_weekday A (start + Z.of_nat i)%Z)
                                         <$> seq 0 num_days in
                      let input_data :=
                        mkInput senior_ids junior_ids start_s end_s None
                                (default 1%Z (p_min_nurses_per_shift data))
                                (default 0%Z (p_min_seniors_per_shift data))
                                (Some (default 1%Z (p_min_am_coverage data)))
                                (Some (default 0%Z (p_min_senior_am_coverage data)))
                                (default 168%Z (p_max_hours_per_week data))
                                (default 0%Z (p_min_hours_per_week data))
                                (Some rules) (Some day_of_week) in
                      match llm_client.parse_constraints (app_llm A) rules (Some days)
                              (Some day_of_week) with
                      | inl e => Abort 500 ("Constraint parsing error: " +:+ exn_msg e)
                      | inr constraints =>
                          match build_and_solve (app_host A) input_data constraints with
                          | inl e => Abort 500 ("Scheduling error: " +:+ exn_msg e)
                          | inr roster => Respond 200 roster
                          end
                      end
                  end
              end
          (* not reached: no field is missing here *)
          | _, _, _, _, _ => Unhandled (KeyError "'start_date'")
          end
      end
  end.

(** ** Properties of the translator client *)

Import llm_client.

(** [call_llm] returns a text only from the Anthropic, OpenRouter and
    DeepSeek branches: with the provider [openai] (the default) it raises or
    returns [None], and with any other name it raises. *)
Theorem call_llm_text_providers E prompt text :
  llm_client.call_llm E prompt = inr (Some text) →
  (PROVIDER E = "anthropic" ∧ anthropic_installed E = true
   ∧ anthropic_message_text E prompt = inr text)
  ∨ (PROVIDER E = "openrouter" ∧ openrouter_message_content E prompt = inr text)
  ∨ (PROVIDER E = "deepseek" ∧ deepseek_message_content E prompt = inr text).
Proof.
  unfold llm_client.call_llm. repeat case_bool_decide.
  - destruct (openai_installed E); simpl; [|discriminate].
    unfold _call_openai. destruct (openai_chat_completion E prompt); discriminate.
  - destruct (anthropic_installed E) eqn:Hi; simpl; [|discriminate].
    unfold _call_anthropic.
    destruct (anthropic_message_text E prompt) as [e|t]; [discriminate|].
    intros [= ->]. left. done.
  - unfold _call_openrouter.
    destruct (openrouter_message_content E prompt) as [e|t]; [discriminate|].
    intros [= ->]. right. left. done.
  - unfold _call_deepseek.
    destruct (deepseek_message_content E prompt) as [e|t]; [discriminate|].
    intros [= ->]. right. right. done.
  - discriminate.
Qed.

(** An environment in which every remote call answers with the same text
    and [json.loads] accepts one text only. *)
Definition canned_env (provider reply : string) (good : string) (j : Json) : LlmEnv :=
  mkLlmEnv provider true true (λ _, ret reply) (λ _, ret reply) (λ _, ret reply)
           (λ _, ret reply)
           (λ s, if bool_decide (s = good) then Some j else None).

Lemma call_llm_text_providers_witness :
  (PROVIDER (canned_env "deepseek" "{}" "{}" (JDict [])) = "anthropic"
   ∧ anthropic_installed (canned_env "deepseek" "{}" "{}" (JDict [])) = true
   ∧ anthropic_message_text (canned_env "deepseek" "{}" "{}" (JDict [])) "p" = inr "{}")
  ∨ (PROVIDER (canned_env "deepseek" "{}" "{}" (JDict [])) = "openrouter"
     ∧ openrouter_message_content (canned_env "deepseek" "{}" "{}" (JDict [])) "p"
       = inr "{}")
  ∨ (PROVIDER (canned_env "deepseek" "{}" "{}" (JDict [])) = "deepseek"
     ∧ deepseek_message_content (canned_env "deepseek" "{}" "{}" (JDict [])) "p"
       = inr "{}").
Proof. apply call_llm_text_providers. reflexivity. Defined.

Lemma call_llm_openai E prompt :
  PROVIDER E = "openai" →
  (∃ e, llm_client.call_llm E prompt = inl e)
  ∨ llm_client.call_llm E prompt = inr None.
Proof.
  intros Hp. unfold llm_client.call_llm. rewrite bool_decide_eq_true_2 by done.
  destruct (openai_installed E); simpl; [|eauto].
  unfold _call_openai. destruct (openai_chat_completion E prompt); simpl; eauto.
Qed.

(** With the provider [openai], [parse_constraints] raises on every call:
    the reply it gets is [None], which [json.loads] does not take. *)
Theorem parse_constraints_openai_raises E rules_text days day_of_week :
  PROVIDER E = "openai" →
  ∃ e, parse_constraints E rules_text days day_of_week = inl e.
Proof.
  intros Hp. unfold parse_constraints.
  destruct (call_llm_openai E (parse_prompt rules_text days day_of_week) Hp)
    as [[e ->]| ->]; simpl; eauto.
Qed.

Lemma parse_constraints_openai_raises_witness :
  ∃ e, parse_constraints (canned_env "openai" "{}" "{}" (JDict [])) "rule" None None
       = inl e.
Proof. apply parse_constraints_openai_raises. reflexivity. Defined.

(** Without a calendar, [parse_constraints] sends the prompt that
    [build_constraints_prompt] of [prompts.py] builds. *)
Theorem parse_prompt_without_calendar (rules_text : string) (day_of_week : option (list string)) :
  parse_prompt rules_text None day_of_week = build_constraints_prompt rules_text
  ∧ parse_prompt rules_text (Some []) day_of_week = build_constraints_prompt rules_text.
Proof. split; reflexivity. Qed.

(** No character of the text is [c]. *)
Fixpoint lacks (c : ascii) (s : string) : bool :=
  match s with
  | EmptyString => true
  | String a s' => negb (bool_decide (a = c)) && lacks c s'
  end.

Lemma from_first_lacks (c : ascii) (pre s : string) :
  lacks c pre = true → from_first c (pre +:+ s) = from_first c s.
Proof.
  induction pre as [|a pre IH]; [done|]. intros Hl. simpl in Hl.
  apply andb_prop in Hl as [Ha Hl]. rewrite append_cons. simpl.
  case_bool_decide; [done|]. by apply IH.
Qed.

Lemma lacks_append (c : ascii) (a b : string) :
  lacks c (a +:+ b) = lacks c a && lacks c b.
Proof.
  induction a as [|x a IH]; [done|]. rewrite append_cons. simpl.
  by rewrite IH, andb_assoc.
Qed.

Lemma lacks_rev (c : ascii) (s : string) : lacks c (String.rev s) = lacks c s.
Proof.
  induction s as [|a s IH]; [done|].
  rewrite rev_cons, lacks_append, IH. simpl.
  rewrite andb_true_r. apply andb_comm.
Qed.

Lemma upto_last_lacks (c : ascii) (s post : string) :
  lacks c post = true →
  upto_last c (s +:+ String c post) = Some (s +:+ String c "").
Proof.
  intros Hl. unfold upto_last.
  rewrite rev_append, rev_cons, append_assoc.
  rewrite from_first_lacks by (by rewrite lacks_rev).
  rewrite append_cons. simpl. rewrite bool_decide_eq_true_2 by done. simpl.
  f_equal. rewrite <- (rev_involutive (s +:+ String c "")).
  f_equal. rewrite rev_append. reflexivity.
Qed.

(** The span taken from a reply: text before the first opening brace and
    after the last closing brace is dropped. *)
Lemma brace_span_extracts (pre mid post : string) :
  lacks "{" pre = true → lacks "}" post = true →
  brace_span (pre +:+ String "{" (mid +:+ String "}" post))
  = Some (String "{" (mid +:+ String "}" "")).
Proof.
  intros Hpre Hpost. unfold brace_span.
  rewrite from_first_lacks by done. simpl.
  by rewrite upto_last_lacks.
Qed.

(** A reply that is not JSON as a whole but carries a JSON object between
    its first opening brace and its last closing brace is parsed from that
    span; a reply from which nothing parses raises the [RuntimeError] that
    quotes the reply. *)
Theorem parse_constraints_falls_back_to_braces E rules_text days day_of_week
    (pre mid post : string) :
  let raw := pre +:+ String "{" (mid +:+ String "}" post) in
  llm_client.call_llm E (parse_prompt rules_text days day_of_week) = inr (Some raw) →
  json_loads E raw = None →
  lacks "{" pre = true → lacks "}" post = true →
  parse_constraints E rules_text days day_of_week
  = match json_loads E (String "{" (mid +:+ String "}" "")) with
    | Some j => inr j
    | None => inl (parse_failure raw)
    end.
Proof.
  intros raw Hcall Hraw Hpre Hpost. unfold parse_constraints.
  rewrite Hcall. simpl. rewrite Hraw.
  unfold raw. rewrite brace_span_extracts by done. done.
Qed.

Lemma parse_constraints_falls_back_to_braces_witness :
  parse_constraints
    (canned_env "deepseek" ("Here you go: " +:+ String "{" ("" +:+ String "}" " Enjoy."))
                "{}" (JDict []))
    "rule" None None
  = match json_loads
            (canned_env "deepseek"
               ("Here you go: " +:+ String "{" ("" +:+ String "}" " Enjoy."))
               "{}" (JDict []))
            (String "{" ("" +:+ String "}" "")) with
    | Some j => inr j
    | None => inl (parse_failure
                     ("Here you go: " +:+ String "{" ("" +:+ String "}" " Enjoy.")))
    end.
Proof.
  apply (parse_constraints_falls_back_to_braces
           (canned_env "deepseek"
              ("Here you go: " +:+ String "{" ("" +:+ String "}" " Enjoy."))
              "{}" (JDict []))
           "rule" None None "Here you go: " "" " Enjoy.");
    reflexivity.
Defined.

(** ** Properties of the endpoint *)

(** The [input_data] that the endpoint hands to [build_and_solve]. *)
Definition endpoint_input (A : AppEnv) (data : Payload)
    (start_s end_s : string) (senior_ids junior_ids : list string)
    (rules : string) (start end_ : Z) : InputData :=
  mkInput senior_ids junior_ids start_s end_s None
          (default 1%Z (p_min_nurses_per_shift data))
          (default 0%Z (p_min_seniors_per_shift data))
          (Some (default 1%Z (p_min_am_coverage data)))
          (Some (default 0%Z (p_min_senior_am_coverage data)))
          (default 168%Z (p_max_hours_per_week data))
          (default 0%Z (p_min_hours_per_week data))
          (Some rules)
          (Some ((λ i : nat, app_weekday A (start + Z.of_nat i)%Z)
                 <$> seq 0 (Z.to_nat (end_ - start + 1)))).

Lemma schedule_respond_inv A body status out :
  schedule A body = Respond status out →
  ∃ data start_s end_s senior_ids junior_ids rules start end_ constraints,
    body = Some data
    ∧ status = 200%Z
    ∧ app_strptime A start_s = inr start
    ∧ app_strptime A end_s = inr end_
    ∧ parse_constraints (app_llm A) rules
        (Some ((λ i : nat, app_strftime A (start + Z.of_nat i)%Z)
               <$> seq 0 (Z.to_nat (end_ - start + 1))))
        (Some ((λ i : nat, app_weekday A (start + Z.of_nat i)%Z)
               <$> seq 0 (Z.to_nat (end_ - start + 1))))
      = inr constraints
    ∧ build_and_solve (app_host A)
        (endpoint_input A data start_s end_s senior_ids junior_ids rules start end_)
        constraints
      = inr out.
Proof.
  unfold schedule. destruct body as [data|]; [|discriminate].
  destruct (missing_fields data); [|discriminate].
  destruct (p_start_date data) as [start_s|]; [|discriminate].
  destruct (p_end_date data) as [end_s|]; [|discriminate].
  destruct (p_senior_ids data) as [senior_ids|]; [|discriminate].
  destruct (p_junior_ids data) as [junior_ids|]; [|discriminate].
  destruct (p_rules_text data) as [rules|]; [|discriminate].
  destruct (app_strptime A start_s) as [e|start] eqn:Hs; [discriminate|].
  destruct (app_strptime A end_s) as [e|end_] eqn:He; [discriminate|].
  destruct (parse_constraints _ _ _ _) as [e|constraints] eqn:Hp; [discriminate|].
  destruct (build_and_solve _ _ _) as [e|roster] eqn:Hb; [discriminate|].
  intros [= <- <-].
  exists data, start_s, end_s, senior_ids, junior_ids, rules, start, end_, constraints.
  repeat split; done.
Qed.

(** An environment for the endpoint on top of the reference calendar. *)
Definition reference_app (provider reply : string)
    (candidates : list assignment) : AppEnv :=
  mkAppEnv Calendar.strptime Calendar.strftime (λ _, "Friday") (λ rules, rules)
           (λ _ ns, ret ns) (first_solution candidates)
           (canned_env provider reply "{}" (JDict [])).

(** A request that lacks one of the five required keys is answered with
    status 400, whatever the environment: no date is parsed, and neither
    the translator nor the solver is called. *)
Theorem missing_field_is_bad_request (data : Payload) :
  p_start_date data = None ∨ p_end_date data = None ∨ p_senior_ids data = None
  ∨ p_junior_ids data = None ∨ p_rules_text data = None →
  missing_fields data ≠ []
  ∧ ∀ A, schedule A (Some data)
         = Abort 400 ("Missing required fields: "
                      +:+ String.concat ", " (missing_fields data)).
Proof.
  intros Hmissing.
  assert (missing_fields data ≠ []) as Hne.
  { unfold missing_fields, required_fields, has_field. simpl.
    destruct (p_start_date data), (p_end_date data), (p_senior_ids data),
      (p_junior_ids data), (p_rules_text data);
      try discriminate; (destruct Hmissing as [H|[H|[H|[H|H]]]]; discriminate H). }
  split; [done|]. intros A. unfold schedule.
  destruct (missing_fields data); done.
Qed.

Definition payload_without_dates : Payload :=
  mkPayload None None (Some ["S1"]) (Some []) (Some "") None None None None None None None.

Lemma missing_field_is_bad_request_witness :
  schedule (reference_app "deepseek" "{}" []) (Some payload_without_dates)
  = Abort 400 ("Missing required fields: "
               +:+ String.concat ", " (missing_fields payload_without_dates)).
Proof.
  refine (proj2 (missing_field_is_bad_request payload_without_dates _)
                (reference_app "deepseek" "{}" [])).
  by left.
Defined.

(** With the provider [openai], which is the default, the endpoint never
    answers with a roster: every request ends in an abort or an unhandled
    exception. *)
Theorem openai_endpoint_never_responds A body :
  PROVIDER (app_llm A) = "openai" →
  (∃ status description, schedule A body = Abort status description)
  ∨ (∃ e, schedule A body = Unhandled e).
Proof.
  intros Hp.
  destruct (schedule A body) as [status out|status description|e] eqn:Hresp;
    [exfalso|eauto..].
  apply schedule_respond_inv in Hresp
    as (data & start_s & end_s & sen & jun & rules & start & end_ & constraints
        & _ & _ & _ & _ & Hparse & _).
  destruct (parse_constraints_openai_raises (app_llm A) rules
              (Some ((λ i : nat, app_strftime A (start + Z.of_nat i)%Z)
                     <$> seq 0 (Z.to_nat (end_ - start + 1))))
              (Some ((λ i : nat, app_weekday A (start + Z.of_nat i)%Z)
                     <$> seq 0 (Z.to_nat (end_ - start + 1)))) Hp) as [e He].
  congruence.
Qed.

Definition payload_one_day : Payload :=
  mkPayload (Some "2025-01-10") (Some "2025-01-10")
            (Some ["S1"; "S2"]) (Some ["J1"; "J2"]) (Some "")
            None None None None (Some 30%Z) None
            (Some {[ "J2" := ["2025-01-10"] ]}).

Lemma openai_endpoint_never_responds_witness :
  (∃ status description,
     schedule (reference_app "openai" "{}" [ones [0; 6; 12; 18]]) (Some payload_one_day)
     = Abort status description)
  ∨ (∃ e, schedule (reference_app "openai" "{}" [ones [0; 6; 12; 18]])
            (Some payload_one_day) = Unhandled e).
Proof. apply openai_endpoint_never_responds. reflexivity. Defined.

Lemma build_and_solve_inv H input_data constraints out :
  build_and_solve H input_data constraints = inr out →
  ∃ ns st sol,
    build_model H input_data = inr ns
    ∧ Solve H (ns_model ns) = (st, sol)
    ∧ format_output st sol ns = inr out.
Proof.
  unfold build_and_solve. intros Hb.
  apply bind_inr in Hb as (ns & Hm & Hb).
  destruct (Solve H (ns_model ns)) as [st sol] eqn:Hsolve. eauto 6.
Qed.

(** An answer that is not an abort has status 200, and its body is a roster
    under the only key "s" or the failure object: a request for which no
    roster is found is answered with status 200 too. *)
Theorem endpoint_answers A body status out :
  schedule A body = Respond status out →
  status = 200%Z ∧ (out = failure_output ∨ ∃ entries, out = {[ "s" := Entries entries ]}).
Proof.
  intros Hresp.
  apply schedule_respond_inv in Hresp
    as (data & start_s & end_s & sen & jun & rules & start & end_ & constraints
        & _ & -> & _ & _ & _ & Hb).
  split; [done|].
  apply build_and_solve_inv in Hb as (ns & st & sol & _ & _ & Hout).
  unfold format_output in Hout. destruct (is_success st).
  - apply bind_inr in Hout as (entries & _ & [= <-]). right.
    exists entries. by rewrite insert_singleton_eq.
  - injection Hout as <-. by left.
Qed.

Definition payload_understaffed : Payload :=
  mkPayload (Some "2025-01-10") (Some "2025-01-10")
            (Some ["S1"; "S2"]) (Some ["J1"; "J2"]) (Some "")
            None None (Some 5%Z) None None None None.

Lemma endpoint_answers_witness :
  200%Z = 200%Z
  ∧ (failure_output = failure_output
     ∨ ∃ entries, failure_output = {[ "s" := Entries entries ]}).
Proof.
  apply (endpoint_answers (reference_app "deepseek" "{}" [ones [0; 6; 12; 18]])
           (Some payload_understaffed)).
  vm_compute. reflexivity.
Defined.

(** The endpoint does not pass [mc_preferences] on: with a sound solver and
    fragments that only add constraints, no entry of an answer is MC,
    whatever leave the request declares. *)
Theorem endpoint_never_assigns_mc A body status out entries :
  solver_sound (app_host A) → fragments_only_extend (app_host A) →
  schedule A body = Respond status out →
  out !! "s" = Some (Entries entries) →
  Forall (λ entry, entry.2 ≠ "MC") entries.
Proof.
  intros Hsound Hfrag Hresp Hs. apply Forall_forall. intros [[n date] s] Hin. simpl.
  apply schedule_respond_inv in Hresp
    as (data & start_s & end_s & sen & jun & rules & start & end_ & constraints
        & _ & _ & _ & _ & _ & Hb).
  set (input_data := endpoint_input A data start_s end_s sen jun rules start end_) in *.
  apply build_and_solve_inv in Hb as (ns & st & sol & Hm & Hsolve & Hout).
  unfold format_output in Hout. destruct (is_success st) eqn:Hst.
  - pose proof (solve_core_solution _ _ _ _ _ Hsound Hfrag Hm Hsolve Hst) as Hcs.
    rewrite (cs_project Hcs) in Hout. simpl in Hout. injection Hout as <-.
    rewrite insert_singleton_eq, lookup_singleton_eq in Hs. injection Hs as <-.
    apply elem_of_roster_entries in Hin as (d & Hn & Hday & ->).
    destruct (cs_leave Hcs n d date Hn Hday) as [_ Hno].
    apply Hno. unfold declared. simpl. rewrite lookup_empty. simpl.
    apply not_elem_of_nil.
  - injection Hout as <-. unfold failure_output in Hs.
    rewrite lookup_insert_ne, lookup_singleton_eq in Hs by done.
    injection Hs as <-. by apply elem_of_nil in Hin.
Qed.

Lemma reference_app_sound provider reply candidates :
  solver_sound (app_host (reference_app provider reply candidates)).
Proof. intros m st sol. apply first_solution_sound. Qed.

Lemma reference_app_extends provider reply candidates :
  fragments_only_extend (app_host (reference_app provider reply candidates)).
Proof. intros snippet ns ns' [= <-]. apply extends_refl. Qed.

Definition roster_without_leave : list (string * string * string) :=
  [("S1", "2025-01-10", "AM"); ("S2", "2025-01-10", "PM");
   ("J1", "2025-01-10", "Night"); ("J2", "2025-01-10", "REST")].

Lemma endpoint_never_assigns_mc_witness :
  Forall (λ entry, entry.2 ≠ "MC") roster_without_leave.
Proof.
  apply (endpoint_never_assigns_mc
           (reference_app "deepseek" "{}" [ones [0; 6; 12; 18]])
           (Some payload_one_day) 200
           ({[ "s" := Entries roster_without_leave ]} : Output)
           roster_without_leave
           (reference_app_sound _ _ _) (reference_app_extends _ _ _)).
  - vm_compute. reflexivity.
  - vm_compute. reflexivity.
Defined.


